(** * erda ebpf-agent: the probe registry and the HTTP / RPC enrichers

    A shallow embedding of
      - pkg/plugins/protocols/http/meta/provider.go  (Convert)
      - pkg/plugins/protocols/rpc/rpc.go             (Gather, sendMetrics,
                                                      convertRpc2Metric)
      - ebpf/plugins/oomkillprocesser/main.c         (kprobe_oom_kill_process)
    Go strings are byte strings ([string]); Go maps are [gmap]s, and reading
    a missing key yields the zero value; [(T, error)] results are [option]s
    wherever the error is only logged. *)

From Stdlib Require Import ZArith String Ascii DecimalString.
From stdpp Require Import gmap strings list fin_maps.

Local Open Scope Z_scope.

(** ** Go primitives used by both files *)
Module Go.

(** [m[k]] on a [map[string]string]: the zero value when [k] is missing. *)
Definition index (m : gmap string string) (k : string) : string :=
  default EmptyString (m !! k).

(** The verb [%d] of [fmt.Sprintf], and [strconv.Itoa]. *)
Definition fmt_d (z : Z) : string := NilZero.string_of_int (Z.to_int z).

Definition Itoa (z : Z) : string := fmt_d z.

(** [len(s)] of a string: its number of bytes. *)
Definition len (s : string) : Z := Z.of_nat (String.length s).

End Go.

(** ** k8s objects, as far as the enrichers read them *)
Module corev1.

Record Pod := {
  Pod_Namespace : string;
  Pod_Name : string;
  Pod_UID : string;
  Pod_Labels : gmap string string;
  Pod_Annotations : gmap string string;
  Pod_HostIP : string            (* Status.HostIP *)
}.

Record Service := {
  Service_Namespace : string;
  Service_Name : string
}.

End corev1.

(** ** The kprobe helper: the workload directory behind [kprobe.Interface] *)
Module kprobe.

(** A veth as the helper reports it: [Link.Attrs().Index] and
    [Neigh.IP.String()]. *)
Record NeighLink := {
  Link_Index : Z;
  Neigh_IP : string
}.

Inductive EventType :=
| LinkAdd
| LinkDelete
| LinkOther (code : Z).         (* any other value of the type *)

Record NeighLinkEvent := {
  Type_ : EventType;
  Veth : NeighLink
}.

(** [GetVethes] returns the veths or an error; the channel of
    [RegisterNetLinkListener] is the list of events a run consumes. *)
Record Interface := {
  GetPodByUID : string -> option corev1.Pod;
  GetService : string -> option corev1.Service;
  GetVethes : list NeighLink + string
}.

End kprobe.

(** ** metric.Metric *)
Module metric.

Record Metric := {
  Name : string;
  Measurement : string;
  Timestamp : Z;
  OrgName : string;
  Tags : gmap string string;
  Fields : gmap string Z
}.

Definition set_Tags (f : gmap string string -> gmap string string) (o : Metric) : Metric :=
  {| Name := Name o; Measurement := Measurement o; Timestamp := Timestamp o;
     OrgName := OrgName o; Tags := f (Tags o); Fields := Fields o |}.

Definition set_OrgName (s : string) (o : Metric) : Metric :=
  {| Name := Name o; Measurement := Measurement o; Timestamp := Timestamp o;
     OrgName := s; Tags := Tags o; Fields := Fields o |}.

Definition set_Measurement (s : string) (o : Metric) : Metric :=
  {| Name := Name o; Measurement := s; Timestamp := Timestamp o;
     OrgName := OrgName o; Tags := Tags o; Fields := Fields o |}.

Definition set_Name (s : string) (o : Metric) : Metric :=
  {| Name := s; Measurement := Measurement o; Timestamp := Timestamp o;
     OrgName := OrgName o; Tags := Tags o; Fields := Fields o |}.

(** [o.Tags[k] = v] *)
Definition tag (k v : string) (o : Metric) : Metric := set_Tags (insert k v) o.

(** What a metric holds beside its tags and its org name. *)
Definition header (o : Metric) : string * string * Z * gmap string Z :=
  (Name o, Measurement o, Timestamp o, Fields o).

End metric.

(** [fmt.Sprintf("%s_%s_%s", a, b, c)] *)
Definition sprintf_s_s_s (a b c : string) : string :=
  a +:+ "_" +:+ b +:+ "_" +:+ c.

(** [fmt.Sprintf("%s:%d", ip, port)] *)
Definition sprintf_s_d (ip : string) (port : Z) : string :=
  ip +:+ ":" +:+ Go.fmt_d port.

(** ** pkg/plugins/protocols/http/meta/provider.go *)
Module meta.

Import corev1 kprobe metric.

Definition measurementGroup : string := "application_http".
Definition measurementGroupError : string := "application_http_error".
Definition measurementGroupDuration : string := "application_http_slow".

(** ebpf.Metric of the HTTP probe, the fields [Convert] reads. *)
Record ebpf_Metric := {
  Method : string;
  Path : string;
  Version : string;
  StatusCode : Z;               (* uint16 *)
  SourceIP : string;
  SourcePort : Z;
  DestIP : string;
  DestPort : Z
}.

(** [var target any]: a Pod, a Service, or nil. *)
Inductive target_any :=
| TargetPod (t : Pod)
| TargetService (t : Service).

(** Lines 41-57: the metric as first built. *)
Definition output0 (now : Z) (m : ebpf_Metric) : Metric :=
  {| Name := "";
     Measurement := "";
     Timestamp := now;
     OrgName := "";
     Tags :=
       <["http_url" := "http://" +:+ DestIP m +:+ ":" +:+ Go.fmt_d (DestPort m) +:+ Path m]>
       (<["http_version" := Version m]>
       (<["http_target" := Path m]>
       (<["http_status_code" := Go.Itoa (StatusCode m)]>
       (<["http_path" := Path m]>
       (<["http_method" := Method m]>
       (<["span_kind" := "server"]>
       (<["_metric_scope" := "micro_service"]>
       (<["_meta" := "true"]>
       (<["metric_source" := "ebpf"]> ∅)))))))));
     Fields := ∅ |}.

(** Lines 96-133: the [case corev1.Pod] arm of the type switch. *)
Definition pod_arm (m : ebpf_Metric) (sourcePod t : Pod) (output : Metric) : Metric :=
  let output := tag "cluster_name" (Go.index (Pod_Labels t) "DICE_CLUSTER_NAME") output in
  let output := tag "db_host" (sprintf_s_d (DestIP m) (DestPort m)) output in
  let output := tag "org_name" (Go.index (Pod_Labels t) "DICE_ORG_NAME") output in
  let output := tag "peer_address" (Go.index (Tags output) "db_host") output in
  let output := tag "peer_hostname" "" output in
  let output := set_OrgName (Go.index (Tags output) "org_name") output in
  let output := tag "target_application_id" (Go.index (Pod_Labels t) "DICE_APPLICATION_ID") output in
  let output := tag "target_application_name" (Go.index (Pod_Labels t) "DICE_APPLICATION_NAME") output in
  let output := tag "target_org_id" (Go.index (Pod_Labels t) "DICE_ORG_ID") output in
  let output := tag "target_project_id" (Go.index (Pod_Labels t) "DICE_PROJECT_ID") output in
  let output := tag "target_project_name" (Go.index (Pod_Labels t) "DICE_PROJECT_NAME") output in
  let output := tag "target_runtime_id" (Go.index (Pod_Labels t) "DICE_RUNTIME_ID") output in
  let output := tag "target_runtime_name" (Go.index (Pod_Annotations t) "msp.erda.cloud/runtime_name") output in
  let output := tag "target_service_id"
      (sprintf_s_s_s (Go.index (Pod_Labels t) "DICE_APPLICATION_ID")
                     (Go.index (Pod_Annotations t) "msp.erda.cloud/runtime_name")
                     (Go.index (Pod_Labels t) "DICE_SERVICE_NAME")) output in
  let output := tag "target_service_instance_id" (Pod_UID t) output in
  let output := tag "target_service_name" (Go.index (Pod_Annotations t) "msp.erda.cloud/service_name") output in
  let output := tag "target_terminus_key" (Go.index (Pod_Annotations t) "msp.erda.cloud/terminus_key") output in
  let output := tag "target_workspace" (Go.index (Pod_Annotations t) "msp.erda.cloud/workspace") output in
  let output := tag "source_application_id" (Go.index (Pod_Labels sourcePod) "DICE_APPLICATION_ID") output in
  let output := tag "source_application_name" (Go.index (Pod_Labels sourcePod) "DICE_APPLICATION_NAME") output in
  let output := tag "source_org_id" (Go.index (Pod_Labels sourcePod) "DICE_ORG_ID") output in
  let output := tag "source_project_id" (Go.index (Pod_Labels sourcePod) "DICE_PROJECT_ID") output in
  let output := tag "source_project_name" (Go.index (Pod_Labels sourcePod) "DICE_PROJECT_NAME") output in
  let output := tag "source_runtime_id" (Go.index (Pod_Labels sourcePod) "DICE_RUNTIME_ID") output in
  let output := tag "source_runtime_name" (Go.index (Pod_Annotations sourcePod) "msp.erda.cloud/runtime_name") output in
  let output := tag "source_service_id"
      (sprintf_s_s_s (Go.index (Pod_Labels sourcePod) "DICE_APPLICATION_ID")
                     (Go.index (Pod_Annotations sourcePod) "msp.erda.cloud/runtime_name")
                     (Go.index (Pod_Labels sourcePod) "DICE_SERVICE_NAME")) output in
  let output := tag "source_service_instance_id" (Pod_UID sourcePod) output in
  let output := tag "source_service_name" (Go.index (Pod_Annotations sourcePod) "msp.erda.cloud/service_name") output in
  let output := tag "source_terminus_key" (Go.index (Pod_Annotations sourcePod) "msp.erda.cloud/terminus_key") output in
  let output := tag "source_workspace" (Go.index (Pod_Annotations sourcePod) "msp.erda.cloud/workspace") output in
  output.

(** The Pod arm in its three runs of assignments: lines 96-103, 106-118
    and 121-133. *)
Definition pod_peer_tags (m : ebpf_Metric) (t : Pod) (output : Metric) : Metric :=
  let output := tag "cluster_name" (Go.index (Pod_Labels t) "DICE_CLUSTER_NAME") output in
  let output := tag "db_host" (sprintf_s_d (DestIP m) (DestPort m)) output in
  let output := tag "org_name" (Go.index (Pod_Labels t) "DICE_ORG_NAME") output in
  let output := tag "peer_address" (Go.index (Tags output) "db_host") output in
  let output := tag "peer_hostname" "" output in
  let output := set_OrgName (Go.index (Tags output) "org_name") output in
  output.

Definition pod_target_tags (t : Pod) (output : Metric) : Metric :=
  let output := tag "target_application_id" (Go.index (Pod_Labels t) "DICE_APPLICATION_ID") output in
  let output := tag "target_application_name" (Go.index (Pod_Labels t) "DICE_APPLICATION_NAME") output in
  let output := tag "target_org_id" (Go.index (Pod_Labels t) "DICE_ORG_ID") output in
  let output := tag "target_project_id" (Go.index (Pod_Labels t) "DICE_PROJECT_ID") output in
  let output := tag "target_project_name" (Go.index (Pod_Labels t) "DICE_PROJECT_NAME") output in
  let output := tag "target_runtime_id" (Go.index (Pod_Labels t) "DICE_RUNTIME_ID") output in
  let output := tag "target_runtime_name" (Go.index (Pod_Annotations t) "msp.erda.cloud/runtime_name") output in
  let output := tag "target_service_id"
      (sprintf_s_s_s (Go.index (Pod_Labels t) "DICE_APPLICATION_ID")
                     (Go.index (Pod_Annotations t) "msp.erda.cloud/runtime_name")
                     (Go.index (Pod_Labels t) "DICE_SERVICE_NAME")) output in
  let output := tag "target_service_instance_id" (Pod_UID t) output in
  let output := tag "target_service_name" (Go.index (Pod_Annotations t) "msp.erda.cloud/service_name") output in
  let output := tag "target_terminus_key" (Go.index (Pod_Annotations t) "msp.erda.cloud/terminus_key") output in
  let output := tag "target_workspace" (Go.index (Pod_Annotations t) "msp.erda.cloud/workspace") output in
  output.

Definition pod_source_tags (sourcePod : Pod) (output : Metric) : Metric :=
  let output := tag "source_application_id" (Go.index (Pod_Labels sourcePod) "DICE_APPLICATION_ID") output in
  let output := tag "source_application_name" (Go.index (Pod_Labels sourcePod) "DICE_APPLICATION_NAME") output in
  let output := tag "source_org_id" (Go.index (Pod_Labels sourcePod) "DICE_ORG_ID") output in
  let output := tag "source_project_id" (Go.index (Pod_Labels sourcePod) "DICE_PROJECT_ID") output in
  let output := tag "source_project_name" (Go.index (Pod_Labels sourcePod) "DICE_PROJECT_NAME") output in
  let output := tag "source_runtime_id" (Go.index (Pod_Labels sourcePod) "DICE_RUNTIME_ID") output in
  let output := tag "source_runtime_name" (Go.index (Pod_Annotations sourcePod) "msp.erda.cloud/runtime_name") output in
  let output := tag "source_service_id"
      (sprintf_s_s_s (Go.index (Pod_Labels sourcePod) "DICE_APPLICATION_ID")
                     (Go.index (Pod_Annotations sourcePod) "msp.erda.cloud/runtime_name")
                     (Go.index (Pod_Labels sourcePod) "DICE_SERVICE_NAME")) output in
  let output := tag "source_service_instance_id" (Pod_UID sourcePod) output in
  let output := tag "source_service_name" (Go.index (Pod_Annotations sourcePod) "msp.erda.cloud/service_name") output in
  let output := tag "source_terminus_key" (Go.index (Pod_Annotations sourcePod) "msp.erda.cloud/terminus_key") output in
  let output := tag "source_workspace" (Go.index (Pod_Annotations sourcePod) "msp.erda.cloud/workspace") output in
  output.

(** The metric as it stands at line 66, before any lookup. *)
Definition classified (now : Z) (m : ebpf_Metric) : Metric :=
  let measurement := measurementGroup in
  let output := output0 now m in
  let measurement :=
    if 200 <? StatusCode m then measurementGroupError else measurement in
  let output := set_Measurement measurement output in
  let output := set_Name measurement output in
  output.

Section Convert.

Variable kprobeHelper : Interface.

(** Lines 74-84: the target is the pod at [DestIP], else the service there,
    else it stays nil. *)
Definition resolve_target (m : ebpf_Metric) : option target_any :=
  match GetPodByUID kprobeHelper (DestIP m) with
  | None =>
      match GetService kprobeHelper (DestIP m) with
      | Some svc => Some (TargetService svc)
      | None => None
      end
  | Some pod => Some (TargetPod pod)
  end.

(** [Convert]; [now] is [time.Now().UnixNano()], [None] is the nil result. *)
Definition Convert (now : Z) (m : ebpf_Metric) : option Metric :=
  let output := classified now m in
  match GetPodByUID kprobeHelper (SourceIP m) with
  | None => None
  | Some sourcePod =>
      match resolve_target m with
      | None => None
      | Some (TargetPod t) => Some (pod_arm m sourcePod t output)
      | Some (TargetService t) => Some output
      end
  end.

End Convert.

End meta.

(** ** Go's regexp package, for the operators [pathRegexp] is built from

    Matching is over bytes.  Each class of the pattern and the literal [!]
    are ASCII, and [.] takes any character but a line feed, so rune
    decoding never moves a group boundary.  The search is leftmost-first:
    the earliest start that matches, and from it the match a backtracking
    search finds first, every repetition greedy. *)
Module regexp.

Inductive Regexp :=
| Lit (c : ascii)                  (* one literal byte *)
| Star (cls : ascii -> bool)       (* x*, x a one-character class *)
| Plus (cls : ascii -> bool)       (* x+ *)
| Capture (i : nat) (r : Regexp)   (* the i-th parenthesis *)
| Concat (r1 r2 : Regexp).

Fixpoint NumSubexp (r : Regexp) : nat :=
  match r with
  | Lit _ | Star _ | Plus _ => 0%nat
  | Capture i r => Nat.max i (NumSubexp r)
  | Concat r1 r2 => Nat.max (NumSubexp r1) (NumSubexp r2)
  end.

(** The part of [s] in front of its suffix [rest]. *)
Definition consumed (s rest : string) : string :=
  substring 0 (String.length s - String.length rest) s.

Section backtrack.

Context {A : Type}.

(** Greedy [x*]: take one more character first, give it back on failure. *)
Fixpoint star (cls : ascii -> bool) (s : string) (k : string -> option A) : option A :=
  match s with
  | String c s' =>
      if cls c then
        match star cls s' k with
        | Some r => Some r
        | None => k s
        end
      else k s
  | EmptyString => k s
  end.

Fixpoint backtrack (r : Regexp) (s : string) (caps : gmap nat string)
    (k : string -> gmap nat string -> option A) : option A :=
  match r with
  | Lit c =>
      match s with
      | String c' s' => if Ascii.eqb c c' then k s' caps else None
      | EmptyString => None
      end
  | Star cls => star cls s (fun s' => k s' caps)
  | Plus cls =>
      match s with
      | String c s' => if cls c then star cls s' (fun s'' => k s'' caps) else None
      | EmptyString => None
      end
  | Capture i r =>
      backtrack r s caps (fun s' caps' => k s' (<[i := consumed s s']> caps'))
  | Concat r1 r2 =>
      backtrack r1 s caps (fun s' caps' => backtrack r2 s' caps' k)
  end.

End backtrack.

(** Every character of [w] is in the class. *)
Fixpoint all_in (cls : ascii -> bool) (w : string) : bool :=
  match w with
  | String c w' => cls c && all_in cls w'
  | EmptyString => true
  end.

(** [s] does not begin with a character of the class. *)
Definition not_at (cls : ascii -> bool) (s : string) : bool :=
  match s with
  | String c _ => negb (cls c)
  | EmptyString => true
  end.

(** Any character but "!". *)
Definition not_bang (c : ascii) : bool := negb (Ascii.eqb c "!").

(** The language of a [Regexp], with its groups: [r] matches the whole of
    [w] and turns the groups [caps] into [caps'].  This is what the
    documentation of the syntax says, without any order of preference. *)
Fixpoint matches (r : Regexp) (w : string) (caps caps' : gmap nat string) : Prop :=
  match r with
  | Lit c => w = String c EmptyString ∧ caps' = caps
  | Star cls => all_in cls w = true ∧ caps' = caps
  | Plus cls => w ≠ EmptyString ∧ all_in cls w = true ∧ caps' = caps
  | Capture i r => ∃ caps1, matches r w caps caps1 ∧ caps' = <[i := w]> caps1
  | Concat r1 r2 =>
      ∃ w1 w2 caps1,
        w = w1 +:+ w2 ∧ matches r1 w1 caps caps1 ∧ matches r2 w2 caps1 caps'
  end.

(** The first start position, from the left, at which [re] matches. *)
Fixpoint search (re : Regexp) (s : string) : option (string * gmap nat string) :=
  match backtrack re s ∅ (fun s' caps => Some (s', caps)) with
  | Some (s', caps) => Some (consumed s s', caps)
  | None =>
      match s with
      | String _ s' => search re s'
      | EmptyString => None
      end
  end.

(** [re.FindStringSubmatch(s)]: nil without a match, else the whole match
    followed by one string per parenthesis. *)
Definition FindStringSubmatch (re : Regexp) (s : string) : list string :=
  match search re s with
  | None => []
  | Some (g0, caps) =>
      g0 :: map (fun i => default EmptyString (caps !! i)) (seq 1 (NumSubexp re))
  end.

Definition in_range (lo hi c : ascii) : bool :=
  (N_of_ascii lo <=? N_of_ascii c)%N && (N_of_ascii c <=? N_of_ascii hi)%N.

Definition is_letter (c : ascii) : bool := in_range "a" "z" c || in_range "A" "Z" c.

(** [.]: any character except a line feed. *)
Definition dot (c : ascii) : bool := negb (Ascii.eqb c "010").

End regexp.

(** ** pkg/plugins/protocols/rpc/rpc.go: the enricher *)
Module rpc.

Import corev1 kprobe metric regexp.

Definition measurementGroup : string := "application_rpc".

(** The text handed to [regexp.MustCompile]. *)
Definition pathRegexp_source : string := "(.*)!([a-zA-Z.]+)([0-9.]+)([a-zA-Z/;]+)".

(** The three bracketed classes of the pattern: letters or dot, digits or
    dot, letters or slash or semicolon. *)
Definition service_char (c : ascii) : bool := is_letter c || Ascii.eqb c ".".
Definition version_char (c : ascii) : bool := in_range "0" "9" c || Ascii.eqb c ".".
Definition method_char (c : ascii) : bool :=
  is_letter c || Ascii.eqb c "/" || Ascii.eqb c ";".

(** [pathRegexp_source] compiled: group 1 is a greedy run of characters
    other than line feed; then a literal '!'; group 2 is one or more
    [service_char], group 3 one or more [version_char], group 4 one or
    more [method_char]. *)
Definition pathRegexp : Regexp :=
  Concat (Capture 1 (Star dot))
 (Concat (Lit "!")
 (Concat (Capture 2 (Plus service_char))
 (Concat (Capture 3 (Plus version_char))
         (Capture 4 (Plus method_char))))).

(** [fmt.Sprintf("%s.%s", a, b)] *)
Definition sprintf_s_dot_s (a b : string) : string := a +:+ "." +:+ b.

(** [parseLine[i]], read only under [len(parseLine) == 5]. *)
Definition at_ (parseLine : list string) (i : nat) : string := nth i parseLine EmptyString.

(** The five locals of lines 128-137. *)
Record path_vars := {
  rpcTarget : string;
  rpcMethod : string;
  rpcService : string;
  rpcVersion : string;
  serviceVersion : string
}.

Definition parse_path (path : string) : path_vars :=
  let parseLine := FindStringSubmatch pathRegexp path in
  if (length parseLine =? 5)%nat then
    {| rpcTarget := sprintf_s_dot_s (at_ parseLine 2) (at_ parseLine 4);
       rpcMethod := at_ parseLine 4;
       rpcService := at_ parseLine 2;
       rpcVersion := at_ parseLine 1;
       serviceVersion := at_ parseLine 3 |}
  else
    {| rpcTarget := path; rpcMethod := ""; rpcService := "";
       rpcVersion := ""; serviceVersion := "" |}.

Section enricher.

(** [rpcebpf.RpcType] and its constant [RPC_TYPE_DUBBO] are declared in the
    probe's package: a type with equality, converted by [string(...)]. *)
Context {rpcebpf_RpcType : Type} `{EqDecision rpcebpf_RpcType}.
Variable RPC_TYPE_DUBBO : rpcebpf_RpcType.
Variable string_of_RpcType : rpcebpf_RpcType -> string.

Variable kprobeHelper : Interface.

(** rpcebpf.Metric, the fields the provider reads. *)
Record Metric := {
  Status : string;
  Path : string;
  RpcType : rpcebpf_RpcType;
  SrcIP : string;
  SrcPort : Z;
  DstIP : string;
  DstPort : Z;
  Duration : Z
}.

(** Lines 112-127. *)
Definition res0 (now : Z) (m : Metric) : metric.Metric :=
  let res :=
    {| Name := measurementGroup;
       Measurement := measurementGroup;
       Timestamp := now;
       OrgName := "";
       Tags := ∅;
       Fields :=
         <["elapsed_mean" := Duration m]>
         (<["elapsed_min" := Duration m]>
         (<["elapsed_max" := Duration m]>
         (<["elapsed_sum" := Duration m]>
         (<["elapsed_count" := 1]> ∅)))) |} in
  let res := tag "metric_source" "ebpf" res in
  let res := tag "_meta" "true" res in
  let res := tag "_metric_scope" "micro_service" res in
  res.

(** Lines 147-163: the tags that depend on the framing. *)
Definition framing_tags (m : Metric) (v : path_vars) (res : metric.Metric) : metric.Metric :=
  if decide (RpcType m = RPC_TYPE_DUBBO) then
    let res := tag "dubbo_service" (rpcService v) res in
    let res := tag "dubbo_version" (rpcVersion v) res in
    let res := tag "dubbo_method" (rpcMethod v) res in
    let res := tag "service_version" (serviceVersion v) res in
    if String.eqb (Status m) "20" then tag "error" "false" res
    else tag "error" "true" res
  else
    if String.eqb (Status m) "200" then tag "error" "false" res
    else tag "error" "true" res.

(** Lines 141-146: the first tags under the first [if err == nil]. *)
Definition target_head (m : Metric) (targetPod : Pod) (res : metric.Metric) : metric.Metric :=
  let res := set_OrgName (Go.index (Pod_Labels targetPod) "DICE_ORG_NAME") res in
  let res := tag "cluster_name" (Go.index (Pod_Labels targetPod) "DICE_CLUSTER_NAME") res in
  let res := tag "component" (string_of_RpcType (RpcType m)) res in
  let res := tag "db_host" (sprintf_s_d (SrcIP m) (SrcPort m)) res in
  let res := tag "method" (Path m) res in
  let res := tag "_metric_scope_id" (Go.index (Pod_Annotations targetPod) "msp.erda.cloud/terminus_key") res in
  res.

(** Lines 164-182: the tags after the framing. *)
Definition target_tail (m : Metric) (targetPod : Pod) (res : metric.Metric) : metric.Metric :=
  let res := tag "host_ip" (Pod_HostIP targetPod) res in
  let res := tag "org_name" (Go.index (Pod_Labels targetPod) "DICE_ORG_NAME") res in
  let res := tag "peer_address" (sprintf_s_d (DstIP m) (DstPort m)) res in
  let res := tag "peer_service" (Path m) res in
  let res := tag "rpc_method" (Go.index (Tags res) "dubbo_method") res in
  let res := tag "rpc_service" (Go.index (Tags res) "dubbo_service") res in
  let res := tag "span_kind" "server" res in
  let res := tag "target_application_id" (Go.index (Pod_Labels targetPod) "DICE_APPLICATION_ID") res in
  let res := tag "target_application_name" (Go.index (Pod_Labels targetPod) "DICE_APPLICATION_NAME") res in
  let res := tag "target_org_id" (Go.index (Pod_Labels targetPod) "DICE_ORG_ID") res in
  let res := tag "target_project_id" (Go.index (Pod_Labels targetPod) "DICE_PROJECT_ID") res in
  let res := tag "target_project_name" (Go.index (Pod_Labels targetPod) "DICE_PROJECT_NAME") res in
  let res := tag "target_runtime_id" (Go.index (Pod_Labels targetPod) "DICE_RUNTIME_ID") res in
  let res := tag "target_runtime_name" (Go.index (Pod_Annotations targetPod) "msp.erda.cloud/runtime_name") res in
  let res := tag "target_service_id"
      (sprintf_s_s_s (Go.index (Pod_Labels targetPod) "DICE_APPLICATION_ID")
                     (Go.index (Pod_Annotations targetPod) "msp.erda.cloud/runtime_name")
                     (Go.index (Pod_Labels targetPod) "DICE_SERVICE_NAME")) res in
  let res := tag "target_service_instance_id" (Pod_UID targetPod) res in
  let res := tag "target_service_name" (Go.index (Pod_Annotations targetPod) "msp.erda.cloud/service_name") res in
  let res := tag "target_terminus_key" (Go.index (Pod_Annotations targetPod) "msp.erda.cloud/terminus_key") res in
  let res := tag "target_workspace" (Go.index (Pod_Annotations targetPod) "msp.erda.cloud/workspace") res in
  res.

(** Lines 141-182: the body of the first [if err == nil]. *)
Definition target_block (m : Metric) (v : path_vars) (targetPod : Pod)
    (res : metric.Metric) : metric.Metric :=
  let res := target_head m targetPod res in
  let res := framing_tags m v res in
  let res := target_tail m targetPod res in
  res.

(** Lines 186-194: the body of the second [if err == nil]. *)
Definition source_block (sourcePod : Pod) (res : metric.Metric) : metric.Metric :=
  let res := tag "source_application_id" (Go.index (Pod_Labels sourcePod) "DICE_APPLICATION_ID") res in
  let res := tag "source_application_name" (Go.index (Pod_Labels sourcePod) "DICE_APPLICATION_NAME") res in
  let res := tag "source_org_id" (Go.index (Pod_Labels sourcePod) "DICE_ORG_ID") res in
  let res := tag "source_project_id" (Go.index (Pod_Labels sourcePod) "DICE_PROJECT_ID") res in
  let res := tag "source_project_name" (Go.index (Pod_Labels sourcePod) "DICE_PROJECT_NAME") res in
  let res := tag "source_runtime_id" (Go.index (Pod_Labels sourcePod) "DICE_RUNTIME_ID") res in
  let res := tag "source_runtime_name" (Go.index (Pod_Annotations sourcePod) "msp.erda.cloud/runtime_name") res in
  let res := tag "source_service_id"
      (sprintf_s_s_s (Go.index (Pod_Labels sourcePod) "DICE_APPLICATION_ID")
                     (Go.index (Pod_Annotations sourcePod) "msp.erda.cloud/runtime_name")
                     (Go.index (Pod_Labels sourcePod) "DICE_SERVICE_NAME")) res in
  let res := tag "source_workspace" (Go.index (Pod_Annotations sourcePod) "msp.erda.cloud/workspace") res in
  res.

(** [convertRpc2Metric]; [now] is [time.Now().UnixNano()]. *)
Definition convertRpc2Metric (now : Z) (m : Metric) : metric.Metric :=
  let res := res0 now m in
  let v := parse_path (Path m) in
  let res := tag "rpc_target" (rpcTarget v) res in
  let res :=
    match GetPodByUID kprobeHelper (SrcIP m) with
    | Some targetPod => target_block m v targetPod res
    | None => res
    end in
  let res :=
    match GetPodByUID kprobeHelper (DstIP m) with
    | Some sourcePod => source_block sourcePod res
    | None => res
    end in
  res.

(** One turn of the loop of [sendMetrics]: [m] has been received from
    [p.ch], [c] holds what was sent so far. *)
Definition sendMetrics_step (now : Z) (m : Metric) (c : list metric.Metric)
    : list metric.Metric :=
  if (Go.len (Status m) =? 0) || (Go.len (Path m) =? 0) then c
  else
    let mc := convertRpc2Metric now m in
    c ++ [mc].

(** [sendMetrics] over the events received so far, each with the clock
    reading of its turn. *)
Fixpoint sendMetrics (ch : list (Z * Metric)) (c : list metric.Metric)
    : list metric.Metric :=
  match ch with
  | [] => c
  | (now, m) :: ch' => sendMetrics ch' (sendMetrics_step now m c)
  end.

End enricher.

(** *** The probe registry: [Gather]

    [Gather] is the only writer of [rpcProbes] and takes the lock around
    each access; the lock itself is not modelled.  What [Gather] does to
    the outside is kept as a trace. *)

(** [rpcebpf.NewEbpf(index, ip, p.ch)] *)
Record Ebpf := NewEbpf {
  IfIndex : Z;
  PeerIP : string
}.

Inductive effect :=
| ELoad (proj : Ebpf)                      (* proj.Load(spec) *)
| EClose (proj : Ebpf)                     (* proj.Close() *)
| EInfof_veth_add (index : Z) (ip : string)
| EInfof_veth_delete (index : Z) (ip : string)
| EInfof_unknown (ty : EventType).

Definition is_load (e : effect) : bool :=
  match e with ELoad _ => true | _ => false end.

(** How many times [Load] was called. *)
Definition loads (tr : list effect) : nat := length (filter is_load tr).

Definition is_close (e : effect) : bool :=
  match e with EClose _ => true | _ => false end.

(** How many times [Close] was called. *)
Definition closes (tr : list effect) : nat := length (filter is_close tr).

Record provider := {
  rpcProbes : gmap Z Ebpf;
  trace : list effect
}.

Definition do (e : effect) (p : provider) : provider :=
  {| rpcProbes := rpcProbes p; trace := trace p ++ [e] |}.

Definition set_rpcProbes (f : gmap Z Ebpf -> gmap Z Ebpf) (p : provider) : provider :=
  {| rpcProbes := f (rpcProbes p); trace := trace p |}.

(** Where a run of [Gather] stands: in its loop, or ended by
    [log.Fatalf] (which prints and exits the process) or by [panic]. *)
Inductive outcome :=
| Running (p : provider)
| Fatalf (p : provider) (err : string)
| Panic (err : string).

Section Gather.

(** The error [proj.Load(spec)] returns, if any, given all that happened
    before the call. *)
Variable Load : list effect -> Ebpf -> option string.

(** Lines 54-60: one turn of the loop over the snapshot. *)
Definition load_veth (veth : NeighLink) (p : provider) : outcome :=
  let proj := NewEbpf (Link_Index veth) (Neigh_IP veth) in
  match Load (trace p) proj with
  | Some err => Fatalf (do (ELoad proj) p) err
  | None =>
      Running (set_rpcProbes (insert (Link_Index veth) proj) (do (ELoad proj) p))
  end.

Fixpoint load_vethes (vethes : list NeighLink) (p : provider) : outcome :=
  match vethes with
  | [] => Running p
  | veth :: vethes' =>
      match load_veth veth p with
      | Running p' => load_vethes vethes' p'
      | stop => stop
      end
  end.

(** Lines 66-92: one event. *)
Definition handle (event : NeighLinkEvent) (p : provider) : outcome :=
  let index := Link_Index (Veth event) in
  let ip := Neigh_IP (Veth event) in
  match Type_ event with
  | LinkAdd =>
      let p := do (EInfof_veth_add index ip) p in
      match rpcProbes p !! index with
      | Some _ => Running p                       (* continue *)
      | None =>
          let proj := NewEbpf index ip in
          match Load (trace p) proj with
          | Some err => Fatalf (do (ELoad proj) p) err
          | None => Running (set_rpcProbes (insert index proj) (do (ELoad proj) p))
          end
      end
  | LinkDelete =>
      let p := do (EInfof_veth_delete index ip) p in
      match rpcProbes p !! index with
      | Some proj => Running (set_rpcProbes (delete index) (do (EClose proj) p))
      | None => Running p
      end
  | ty => Running (do (EInfof_unknown ty) p)
  end.

(** The [for { select { ... } }] loop over the events of a run. *)
Fixpoint event_loop (vethEvents : list NeighLinkEvent) (p : provider) : outcome :=
  match vethEvents with
  | [] => Running p
  | event :: rest =>
      match handle event p with
      | Running p' => event_loop rest p'
      | stop => stop
      end
  end.

(** [Gather] after [Init]; [spec_err] is the error of
    [ebpf.LoadCollectionSpecFromReader], if any. *)
Definition Gather (spec_err : option string) (kprobeHelper : Interface)
    (vethEvents : list NeighLinkEvent) : outcome :=
  match spec_err with
  | Some err => Panic err
  | None =>
      match GetVethes kprobeHelper with
      | inr err => Panic err
      | inl vethes =>
          match load_vethes vethes {| rpcProbes := ∅; trace := [] |} with
          | Running p => event_loop vethEvents p
          | stop => stop
          end
      end
  end.

End Gather.

End rpc.

(** ** The BPF hash map, as its helpers are documented

    A map of type [BPF_MAP_TYPE_HASH] holds at most [max_entries] keys.
    [bpf_map_update_elem] with [BPF_NOEXIST] creates the element and
    fails on a key that exists; with [BPF_ANY] it creates or replaces;
    creating fails when the map is full.  [bpf_map_lookup_elem] returns
    NULL for a key that is not there. *)
Module bpf.

Definition BPF_ANY : Z := 0.
Definition BPF_NOEXIST : Z := 1.

Definition EEXIST : Z := 17.
Definition E2BIG : Z := 7.

Section hash.

Context {V : Type}.
Variable max_entries : nat.

(** The map after the call, and the value the helper returns. *)
Definition map_update_elem (map : gmap Z V) (key : Z) (value : V) (flags : Z)
    : gmap Z V * Z :=
  match map !! key with
  | Some _ =>
      if flags =? BPF_NOEXIST then (map, - EEXIST) else (<[key := value]> map, 0)
  | None =>
      if (size map <? max_entries)%nat then (<[key := value]> map, 0)
      else (map, - E2BIG)
  end.

Definition map_lookup_elem (map : gmap Z V) (key : Z) : option V := map !! key.

End hash.

End bpf.

(** ** ebpf/plugins/oomkillprocesser/main.c *)
Module oomkillprocesser.

Definition TASK_COMM_LEN : nat := 16.
Definition MAX_STACK_RAWTP : nat := 50.

Record oom_stats := {
  pid : Z;                      (* __u32 *)
  fcomm : list Z;               (* char[TASK_COMM_LEN] *)
  cgroupid : Z;                 (* __u32 *)
  user_stack_size : Z;          (* int *)
  ustack : list Z               (* __u64[MAX_STACK_RAWTP] *)
}.

(** [struct oom_stats data = {};] *)
Definition data0 : oom_stats :=
  {| pid := 0; fcomm := replicate TASK_COMM_LEN 0; cgroupid := 0;
     user_stack_size := 0; ustack := replicate MAX_STACK_RAWTP 0 |}.

(** [.max_entries = 1024 * 16] *)
Definition oom_map_max_entries : nat := 1024 * 16.

(** Conversion to [__u32], and of a [long] to [int]. *)
Definition to_u32 (z : Z) : Z := z mod 2 ^ 32.
Definition to_int (z : Z) : Z := (z + 2 ^ 31) mod 2 ^ 32 - 2 ^ 31.

(** What the kernel hands to one run of the probe: the pointer read from
    [oc->chosen] (0 when it is NULL), the value of
    [bpf_get_current_pid_tgid], what [bpf_get_current_comm] leaves in the
    buffer, the value of [bpf_get_current_cgroup_id], and what
    [bpf_get_stack] returns and leaves in the buffer of the given size. *)
Record kernel := {
  chosen : Z;
  current_pid_tgid : Z;
  current_comm : list Z -> list Z;
  current_cgroup_id : Z;
  get_stack : list Z -> Z -> Z * list Z
}.

(** [kprobe_oom_kill_process]: the map after the run, and the value
    returned. *)
Definition kprobe_oom_kill_process (ctx : kernel) (oom_map : gmap Z oom_stats)
    : gmap Z oom_stats * Z :=
  let p := chosen ctx in
  if p =? 0 then (oom_map, 0)
  else
    let data := data0 in
    let pid := to_u32 (Z.shiftr (current_pid_tgid ctx) 32) in
    let oom_map :=
      fst (bpf.map_update_elem oom_map_max_entries oom_map pid data bpf.BPF_NOEXIST) in
    match bpf.map_lookup_elem oom_map pid with
    | None =>
        let oom_map :=
          fst (bpf.map_update_elem oom_map_max_entries oom_map pid data bpf.BPF_ANY) in
        (oom_map, 0)
    | Some s =>
        let s_pid := pid in
        let s_fcomm := current_comm ctx (fcomm s) in
        let cgroupid := to_u32 (current_cgroup_id ctx) in
        let max_len := Z.of_nat MAX_STACK_RAWTP * 8 in
        let '(ret, s_ustack) := get_stack ctx (ustack s) max_len in
        let s := {| pid := s_pid; fcomm := s_fcomm; cgroupid := cgroupid;
                    user_stack_size := to_int ret; ustack := s_ustack |} in
        (<[pid := s]> oom_map, 0)
    end.

(** The probe over the OOM kills of a boot. *)
Fixpoint runs (kills : list kernel) (oom_map : gmap Z oom_stats) : gmap Z oom_stats :=
  match kills with
  | [] => oom_map
  | ctx :: kills' => runs kills' (fst (kprobe_oom_kill_process ctx oom_map))
  end.

End oomkillprocesser.

(** * What the interface observer has reported *)
Module observer.

Import kprobe.

(** The interfaces whose last event is an Add, starting from [present]. *)
Definition interfaces_after (events : list NeighLinkEvent) (present : gset Z) : gset Z :=
  foldl (fun s event =>
           match Type_ event with
           | LinkAdd => {[ Link_Index (Veth event) ]} ∪ s
           | LinkDelete => s ∖ {[ Link_Index (Veth event) ]}
           | LinkOther _ => s
           end)
        present events.

(** Every probe of the mapping sits under the index it was built for. *)
Definition keyed (rpcProbes : gmap Z rpc.Ebpf) : Prop :=
  map_Forall (fun index proj => rpc.IfIndex proj = index) rpcProbes.

End observer.

(** * The names of the tags each part of the enrichers writes *)
Module tagnames.

(** [convertRpc2Metric]: before the lookups; under the first lookup;
    under the Dubbo framing; under the second lookup. *)
Definition rpc_common : gset string :=
  list_to_set ["metric_source"; "_meta"; "_metric_scope"; "rpc_target"].

Definition rpc_target : gset string :=
  list_to_set
    ["cluster_name"; "component"; "db_host"; "method"; "_metric_scope_id"; "error";
     "host_ip"; "org_name"; "peer_address"; "peer_service"; "rpc_method";
     "rpc_service"; "span_kind"; "target_application_id"; "target_application_name";
     "target_org_id"; "target_project_id"; "target_project_name"; "target_runtime_id";
     "target_runtime_name"; "target_service_id"; "target_service_instance_id";
     "target_service_name"; "target_terminus_key"; "target_workspace"].

Definition rpc_dubbo : gset string :=
  list_to_set ["dubbo_service"; "dubbo_version"; "dubbo_method"; "service_version"].

Definition rpc_source : gset string :=
  list_to_set
    ["source_application_id"; "source_application_name"; "source_org_id";
     "source_project_id"; "source_project_name"; "source_runtime_id";
     "source_runtime_name"; "source_service_id"; "source_workspace"].

(** [Convert]: the literal of lines 43-56; the Pod arm. *)
Definition http_request : gset string :=
  list_to_set
    ["metric_source"; "_meta"; "_metric_scope"; "span_kind"; "http_method";
     "http_path"; "http_status_code"; "http_target"; "http_version"; "http_url"].

Definition http_pod : gset string :=
  list_to_set
    ["cluster_name"; "db_host"; "org_name"; "peer_address"; "peer_hostname";
     "target_application_id"; "target_application_name"; "target_org_id";
     "target_project_id"; "target_project_name"; "target_runtime_id";
     "target_runtime_name"; "target_service_id"; "target_service_instance_id";
     "target_service_name"; "target_terminus_key"; "target_workspace";
     "source_application_id"; "source_application_name"; "source_org_id";
     "source_project_id"; "source_project_name"; "source_runtime_id";
     "source_runtime_name"; "source_service_id"; "source_service_instance_id";
     "source_service_name"; "source_terminus_key"; "source_workspace"].

End tagnames.

(** * Sample workloads and events, for the closed examples below *)
Module samples.

Import corev1 kprobe.

Definition labels_of (app : string) : gmap string string :=
  list_to_map
    [("DICE_CLUSTER_NAME", "dev"); ("DICE_ORG_NAME", "acme"); ("DICE_ORG_ID", "1");
     ("DICE_APPLICATION_ID", "7"); ("DICE_APPLICATION_NAME", app);
     ("DICE_PROJECT_ID", "3"); ("DICE_PROJECT_NAME", "shop");
     ("DICE_RUNTIME_ID", "11"); ("DICE_SERVICE_NAME", app)].

Definition annotations_of (app : string) : gmap string string :=
  list_to_map
    [("msp.erda.cloud/runtime_name", "master"); ("msp.erda.cloud/service_name", app);
     ("msp.erda.cloud/terminus_key", "tk"); ("msp.erda.cloud/workspace", "DEV")].

Definition pod_of (app uid : string) : Pod :=
  {| Pod_Namespace := "default"; Pod_Name := app; Pod_UID := uid;
     Pod_Labels := labels_of app; Pod_Annotations := annotations_of app;
     Pod_HostIP := "192.168.0.9" |}.

Definition client : Pod := pod_of "cart" "uid-1".
Definition server : Pod := pod_of "stock" "uid-2".
Definition frontdoor : Service :=
  {| Service_Namespace := "default"; Service_Name := "stock-svc" |}.

(** 10.0.0.1 and 10.0.0.2 are pods, 10.0.0.3 is a service. *)
Definition directory : Interface :=
  {| GetPodByUID := fun ip =>
       if String.eqb ip "10.0.0.1" then Some client
       else if String.eqb ip "10.0.0.2" then Some server
       else None;
     GetService := fun ip =>
       if String.eqb ip "10.0.0.3" then Some frontdoor else None;
     GetVethes := inl [] |}.

(** As [directory], with a service at every address as well. *)
Definition services_everywhere : Interface :=
  {| GetPodByUID := GetPodByUID directory;
     GetService := fun _ => Some frontdoor;
     GetVethes := inl [] |}.



Definition nobody : Interface :=
  {| GetPodByUID := fun _ => None; GetService := fun _ => None; GetVethes := inl [] |}.

Definition http_event (status : Z) (dst : string) : meta.ebpf_Metric :=
  {| meta.Method := "GET"; meta.Path := "/api"; meta.Version := "HTTP/1.1";
     meta.StatusCode := status;
     meta.SourceIP := "10.0.0.1"; meta.SourcePort := 40000;
     meta.DestIP := dst; meta.DestPort := 8080 |}.

(** The framing kinds, as strings. *)
Definition dubbo : string := "dubbo".

Definition rpc_event (path status kind : string) : rpc.Metric :=
  {| rpc.Status := status; rpc.Path := path; rpc.RpcType := kind;
     rpc.SrcIP := "10.0.0.2"; rpc.SrcPort := 20880;
     rpc.DstIP := "10.0.0.1"; rpc.DstPort := 51000;
     rpc.Duration := 1500 |}.

Definition dubbo_call : rpc.Metric :=
  rpc_event "2.0.0!com.acme.Svc1.0.0/hello" "20" dubbo.

Definition veth (index : Z) (ip : string) : NeighLink :=
  {| Link_Index := index; Neigh_IP := ip |}.

Definition add (index : Z) (ip : string) : NeighLinkEvent :=
  {| Type_ := LinkAdd; Veth := veth index ip |}.

Definition del (index : Z) (ip : string) : NeighLinkEvent :=
  {| Type_ := LinkDelete; Veth := veth index ip |}.

(** Every load succeeds. *)
Definition load_ok : list rpc.effect -> rpc.Ebpf -> option string :=
  fun _ _ => None.

(** Loading fails on interface 2 only. *)
Definition load_fails_on_2 : list rpc.effect -> rpc.Ebpf -> option string :=
  fun _ proj => if rpc.IfIndex proj =? 2 then Some "load: permission denied" else None.

(** Interface churn: 1 and 2 appear, 1 goes, 3 appears. *)
Definition churn : list NeighLinkEvent :=
  [add 1 "10.0.0.1"; add 2 "10.0.0.2"; del 1 "10.0.0.1"; add 3 "10.0.0.3"].

(** A host that starts with two veths, and one whose veths cannot be
    listed. *)
Definition two_veths : Interface :=
  {| GetPodByUID := fun _ => None; GetService := fun _ => None;
     GetVethes := inl [veth 1 "10.0.0.1"; veth 2 "10.0.0.2"] |}.

Definition no_netlink : Interface :=
  {| GetPodByUID := fun _ => None; GetService := fun _ => None;
     GetVethes := inr "netlink: operation not permitted" |}.

(** A provider that holds the probe of interface 1. *)
Definition one_probe : rpc.provider :=
  {| rpc.rpcProbes := {[ 1 := rpc.NewEbpf 1 "10.0.0.1" ]}; rpc.trace := [] |}.

(** An OOM kill seen by the probe: task 4242 of cgroup 2^32 + 7, with a
    user stack of two frames. *)
Definition oom_kill : oomkillprocesser.kernel :=
  {| oomkillprocesser.chosen := 18446612682070000000;
     oomkillprocesser.current_pid_tgid := 4242 * 2 ^ 32 + 4250;
     oomkillprocesser.current_comm := fun _ => [106; 97; 118; 97; 0; 0; 0; 0; 0; 0; 0; 0; 0; 0; 0; 0];
     oomkillprocesser.current_cgroup_id := 2 ^ 32 + 7;
     oomkillprocesser.get_stack := fun _ _ =>
       (16, [94242; 94250] ++ replicate 48 0) |}.

(** The provider after [Init]. *)
Definition fresh : rpc.provider := {| rpc.rpcProbes := ∅; rpc.trace := [] |}.

End samples.

(** * The matcher against the language of the pattern *)
Module regexp_spec.

Import regexp.

Lemma app_cons c (s t : string) : String c s +:+ t = String c (s +:+ t).
Proof. reflexivity. Qed.

Lemma app_assoc (s t u : string) : (s +:+ t) +:+ u = s +:+ (t +:+ u).
Proof. induction s as [|c s IH]; [done|]. by rewrite !app_cons, IH. Qed.

Lemma length_app (s t : string) :
  String.length (s +:+ t) = (String.length s + String.length t)%nat.
Proof. induction s as [|c s IH]; [done|]. rewrite app_cons. cbn. by rewrite IH. Qed.

Lemma substring_app (w s : string) : substring 0 (String.length w) (w +:+ s) = w.
Proof.
  induction w as [|c w IH]; [by destruct s|].
  rewrite app_cons. cbn. by rewrite IH.
Qed.

(** What was read in front of [s] is what [consumed] returns. *)
Lemma consumed_app (w s : string) : consumed (w +:+ s) s = w.
Proof.
  unfold consumed. rewrite length_app.
  replace (String.length w + String.length s - String.length s)%nat
    with (String.length w) by lia.
  apply substring_app.
Qed.

Section backtrack.

Context {A : Type}.

Lemma star_sound cls (k : string → option A) a : ∀ s,
  star cls s k = Some a →
  ∃ w s', s = w +:+ s' ∧ all_in cls w = true ∧ k s' = Some a.
Proof.
  induction s as [|c s IH]; intros Hstar.
  - exists "", "". by cbn in *.
  - cbn [star] in Hstar. destruct (cls c) eqn:Hc.
    + destruct (star cls s k) as [r|] eqn:Hrec.
      * destruct (IH Hstar) as (w & s' & -> & Hall & Hk).
        exists (String c w), s'. cbn [all_in]. by rewrite Hc, Hall.
      * by exists "", (String c s).
    + by exists "", (String c s).
Qed.

Lemma star_fallback cls (k : string → option A) s :
  is_Some (k s) → is_Some (star cls s k).
Proof.
  intros Hk. destruct s as [|c s]; [done|]. cbn [star].
  destruct (cls c); [|done]. by destruct (star cls s k).
Qed.

Lemma star_complete cls (k : string → option A) s' : ∀ w,
  all_in cls w = true → is_Some (k s') → is_Some (star cls (w +:+ s') k).
Proof.
  induction w as [|c w IH]; intros Hall Hk.
  - by apply star_fallback.
  - cbn [all_in] in Hall. apply andb_true_iff in Hall as [Hc Hall].
    rewrite app_cons. cbn [star]. rewrite Hc.
    destruct (IH Hall Hk) as [r ->]. by eexists.
Qed.

(** Whatever the matcher returns comes from a word of the language, read
    at the front of the input. *)
Lemma backtrack_sound (r : Regexp) : ∀ s caps (k : string → gmap nat string → option A) a,
  backtrack r s caps k = Some a →
  ∃ w s' caps', s = w +:+ s' ∧ matches r w caps caps' ∧ k s' caps' = Some a.
Proof.
  induction r as [c|cls|cls|i r IH|r1 IH1 r2 IH2]; intros s caps k a Hrun; cbn [backtrack] in Hrun.
  - destruct s as [|c' s]; [done|].
    destruct (Ascii.eqb_spec c c') as [<-|]; [|done].
    by exists (String c ""), s, caps.
  - apply star_sound in Hrun as (w & s' & -> & Hall & Hk).
    by exists w, s', caps.
  - destruct s as [|c s]; [done|]. destruct (cls c) eqn:Hc; [|done].
    apply star_sound in Hrun as (w & s' & -> & Hall & Hk).
    exists (String c w), s', caps. cbn [matches all_in]. by rewrite Hc, Hall.
  - apply IH in Hrun as (w & s' & caps1 & -> & Hm & Hk).
    rewrite consumed_app in Hk.
    exists w, s', (<[i := w]> caps1). split; [done|]. split; [|done].
    cbn [matches]. by exists caps1.
  - apply IH1 in Hrun as (w1 & s1 & caps1 & -> & Hm1 & Hrun).
    apply IH2 in Hrun as (w2 & s' & caps' & -> & Hm2 & Hk).
    exists (w1 +:+ w2), s', caps'. split; [by rewrite app_assoc|]. split; [|done].
    cbn [matches]. by exists w1, w2, caps1.
Qed.

(** When a word of the language stands at the front of the input and the
    rest is accepted, the matcher finds a match. *)
Lemma backtrack_complete (r : Regexp) : ∀ w caps caps' s' (k : string → gmap nat string → option A),
  matches r w caps caps' → is_Some (k s' caps') →
  is_Some (backtrack r (w +:+ s') caps k).
Proof.
  induction r as [c|cls|cls|i r IH|r1 IH1 r2 IH2]; intros w caps caps' s' k Hm Hk;
    cbn [matches] in Hm; cbn [backtrack].
  - destruct Hm as [-> ->]. rewrite app_cons. cbn. by rewrite Ascii.eqb_refl.
  - destruct Hm as [Hall ->]. by apply star_complete.
  - destruct Hm as (Hne & Hall & ->). destruct w as [|c w]; [done|].
    cbn [all_in] in Hall. apply andb_true_iff in Hall as [Hc Hall].
    rewrite app_cons, Hc. by apply star_complete.
  - destruct Hm as (caps1 & Hm & ->).
    apply (IH w caps caps1 s'); [done|]. by rewrite consumed_app.
  - destruct Hm as (w1 & w2 & caps1 & -> & Hm1 & Hm2).
    rewrite app_assoc. apply (IH1 w1 caps caps1); [done|].
    by apply (IH2 w2 caps1 caps').
Qed.

End backtrack.

Lemma search_sound re : ∀ s g0 caps,
  search re s = Some (g0, caps) →
  ∃ pre post, s = pre +:+ g0 +:+ post ∧ matches re g0 ∅ caps.
Proof.
  induction s as [|c s IH]; intros g0 caps Hsearch; cbn [search] in Hsearch.
  - destruct (backtrack re "" ∅ _) as [[s' caps']|] eqn:Hrun; [|done].
    apply backtrack_sound in Hrun as (w & s1 & caps1 & Hs & Hm & [= <- <-]).
    rewrite Hs, consumed_app in Hsearch. injection Hsearch as <- <-.
    by exists "", s1.
  - destruct (backtrack re (String c s) ∅ _) as [[s' caps']|] eqn:Hrun.
    + apply backtrack_sound in Hrun as (w & s1 & caps1 & Hs & Hm & [= <- <-]).
      rewrite Hs, consumed_app in Hsearch. injection Hsearch as <- <-.
      by exists "", s1.
    + destruct (IH _ _ Hsearch) as (pre & post & -> & Hm).
      by exists (String c pre), post.
Qed.

Lemma search_complete re w caps post : ∀ pre,
  matches re w ∅ caps → is_Some (search re (pre +:+ w +:+ post)).
Proof.
  assert (∀ s, is_Some (backtrack re s ∅ (λ s' caps', Some (s', caps'))) →
               is_Some (search re s)) as Hhere.
  { intros s [[s' caps'] Hrun]. destruct s; cbn [search]; by rewrite Hrun. }
  induction pre as [|c pre IH]; intros Hm.
  - apply Hhere. by apply (backtrack_complete re w ∅ caps).
  - rewrite app_cons. cbn [search].
    destruct (backtrack re _ ∅ _) as [[s' caps']|]; [done|]. by apply IH.
Qed.

End regexp_spec.

(** * Properties of the HTTP enricher *)
Module meta_spec.

Import corev1 kprobe metric meta.

(** The three ways through [Convert]. *)
Lemma Convert_cases (k : Interface) now m :
  (Convert k now m = None ∧
     (GetPodByUID k (SourceIP m) = None ∨
      (GetPodByUID k (DestIP m) = None ∧ GetService k (DestIP m) = None))) ∨
  (∃ sourcePod t,
     GetPodByUID k (SourceIP m) = Some sourcePod ∧
     GetPodByUID k (DestIP m) = Some t ∧
     Convert k now m = Some (pod_arm m sourcePod t (classified now m))) ∨
  (∃ sourcePod svc,
     GetPodByUID k (SourceIP m) = Some sourcePod ∧
     GetPodByUID k (DestIP m) = None ∧
     GetService k (DestIP m) = Some svc ∧
     Convert k now m = Some (classified now m)).
Proof.
  unfold Convert, resolve_target.
  destruct (GetPodByUID k (SourceIP m)) as [sourcePod|] eqn:Hsrc.
  - destruct (GetPodByUID k (DestIP m)) as [t|] eqn:Hdst.
    + right; left. by exists sourcePod, t.
    + destruct (GetService k (DestIP m)) as [svc|] eqn:Hsvc.
      * right; right. by exists sourcePod, svc.
      * left. auto.
  - left. auto.
Qed.

(** Reading a tag out of a tower of assignments. *)
Ltac unfold_tags :=
  unfold pod_arm, classified, output0;
  cbn [Tags Name Measurement OrgName Timestamp Fields
       tag set_Tags set_OrgName set_Measurement set_Name].

Ltac read_tag :=
  unfold_tags;
  repeat (rewrite lookup_insert_ne by discriminate);
  first [ apply lookup_insert_eq | apply lookup_empty ].

Lemma pod_arm_Measurement m sourcePod t o :
  Measurement (pod_arm m sourcePod t o) = Measurement o ∧
  Name (pod_arm m sourcePod t o) = Name o.
Proof. by unfold_tags. Qed.

Lemma classified_Measurement now m :
  Measurement (classified now m) =
    (if 200 <? StatusCode m then "application_http_error" else "application_http") ∧
  Name (classified now m) = Measurement (classified now m).
Proof. by unfold_tags. Qed.

(** Whatever [Convert] emits is [classified], possibly run through the
    pod arm. *)
Lemma Convert_Some (k : Interface) now m out :
  Convert k now m = Some out →
  out = classified now m ∨
  ∃ sourcePod t, out = pod_arm m sourcePod t (classified now m).
Proof.
  unfold Convert, resolve_target.
  destruct (GetPodByUID k (SourceIP m)) as [sourcePod|]; [|discriminate].
  destruct (GetPodByUID k (DestIP m)) as [t|].
  - intros [= <-]. right. by exists sourcePod, t.
  - destruct (GetService k (DestIP m)); [|discriminate].
    intros [= <-]. by left.
Qed.

(** C2: a metric that [Convert] emits has measurement and name
    [application_http] when the status code is at most 200, and
    [application_http_error] when it is above 200. *)
Theorem Convert_classification (k : Interface) now m out :
  Convert k now m = Some out →
  (StatusCode m ≤ 200 →
     Measurement out = "application_http" ∧ Name out = "application_http") ∧
  (200 < StatusCode m →
     Measurement out = "application_http_error" ∧ Name out = "application_http_error").
Proof.
  intros Hout.
  assert (Measurement out = Measurement (classified now m) ∧
          Name out = Name (classified now m)) as [HM HN].
  { destruct (Convert_Some _ _ _ _ Hout) as [->|(s & t & ->)]; [done|].
    apply pod_arm_Measurement. }
  destruct (classified_Measurement now m) as [Hc Hn].
  rewrite HM, HN, Hn, Hc.
  split; intros Hs.
  - by destruct (Z.ltb_spec 200 (StatusCode m)); [lia|].
  - by destruct (Z.ltb_spec 200 (StatusCode m)); [|lia].
Qed.

Lemma Convert_classification_witness :
  ∃ out, Convert samples.directory 0 (samples.http_event 500 "10.0.0.2") = Some out ∧
         Measurement out = "application_http_error" ∧
         Name out = "application_http_error".
Proof.
  eexists. split; [reflexivity|].
  apply (Convert_classification samples.directory 0 (samples.http_event 500 "10.0.0.2"));
    [reflexivity | simpl; lia].
Defined.

(** C4: [Convert] returns nil exactly when no pod is known at the source
    address, or neither a pod nor a service is known at the destination
    address. *)
Theorem Convert_suppressed_iff (k : Interface) now m :
  Convert k now m = None ↔
  GetPodByUID k (SourceIP m) = None ∨
  (GetPodByUID k (DestIP m) = None ∧ GetService k (DestIP m) = None).
Proof.
  destruct (Convert_cases k now m)
    as [[Hn Hd]|[(s & t & Hs & Ht & Hc)|(s & svc & Hs & Ht & Hv & Hc)]].
  - done.
  - rewrite Hc, Hs, Ht. split; [done|]. intros [?|[? _]]; done.
  - rewrite Hc, Hs, Hv. split; [done|]. intros [?|[_ ?]]; done.
Qed.

(** C10: in a metric that [Convert] emits, [http_target] and [http_path]
    are the path of the event, and [http_url] is "http://", the
    destination address, ":", the destination port in decimal and the
    path. *)
Theorem Convert_http_tags (k : Interface) now m out :
  Convert k now m = Some out →
  Tags out !! "http_target" = Some (Path m) ∧
  Tags out !! "http_path" = Some (Path m) ∧
  Tags out !! "http_url" =
    Some ("http://" +:+ DestIP m +:+ ":" +:+ Go.fmt_d (DestPort m) +:+ Path m).
Proof.
  intros Hout.
  destruct (Convert_Some _ _ _ _ Hout) as [->|(s & t & ->)];
    (split; [|split]); read_tag.
Qed.

Lemma Convert_http_tags_witness :
  ∃ out, Convert samples.directory 0 (samples.http_event 200 "10.0.0.2") = Some out ∧
         Tags out !! "http_target" = Some "/api" ∧
         Tags out !! "http_path" = Some "/api" ∧
         Tags out !! "http_url" = Some "http://10.0.0.2:8080/api".
Proof.
  eexists. split; [reflexivity|].
  apply (Convert_http_tags samples.directory 0 (samples.http_event 200 "10.0.0.2")).
  reflexivity.
Defined.

(** The common tags of the HTTP path. *)
Lemma Convert_common_tags (k : Interface) now m out :
  Convert k now m = Some out →
  Tags out !! "metric_source" = Some "ebpf" ∧
  Tags out !! "_meta" = Some "true" ∧
  Tags out !! "_metric_scope" = Some "micro_service" ∧
  Tags out !! "span_kind" = Some "server".
Proof.
  intros Hout.
  destruct (Convert_Some _ _ _ _ Hout) as [->|(s & t & ->)];
    repeat split; read_tag.
Qed.

(** The tags that exist before the lookups. *)
Lemma classified_dom now m :
  dom (Tags (classified now m)) =
    ({[ "metric_source"; "_meta"; "_metric_scope"; "span_kind"; "http_method";
        "http_path"; "http_status_code"; "http_target"; "http_version";
        "http_url" ]} : gset string).
Proof.
  unfold_tags. rewrite !dom_insert_L, dom_empty_L. set_solver.
Qed.

(** C7, as the code has it: when the source is a pod and the destination
    resolves to a service only, [Convert] emits the metric of line 66
    unchanged.  Its tags are the ten set before the lookups, so it has no
    source_* tag and no target tag, and its org name is empty. *)
Theorem Convert_service_target (k : Interface) now m sourcePod svc :
  GetPodByUID k (SourceIP m) = Some sourcePod →
  GetPodByUID k (DestIP m) = None →
  GetService k (DestIP m) = Some svc →
  ∃ out, Convert k now m = Some out ∧
    dom (Tags out) =
      ({[ "metric_source"; "_meta"; "_metric_scope"; "span_kind"; "http_method";
          "http_path"; "http_status_code"; "http_target"; "http_version";
          "http_url" ]} : gset string) ∧
    OrgName out = "".
Proof.
  intros Hs Ht Hv. exists (classified now m). split; [|split].
  - unfold Convert, resolve_target. by rewrite Hs, Ht, Hv.
  - apply classified_dom.
  - done.
Qed.

Lemma Convert_service_target_witness :
  ∃ out, Convert samples.directory 0 (samples.http_event 200 "10.0.0.3") = Some out ∧
    dom (Tags out) =
      ({[ "metric_source"; "_meta"; "_metric_scope"; "span_kind"; "http_method";
          "http_path"; "http_status_code"; "http_target"; "http_version";
          "http_url" ]} : gset string) ∧
    OrgName out = "".
Proof.
  apply (Convert_service_target samples.directory 0 (samples.http_event 200 "10.0.0.3")
           samples.client samples.frontdoor); reflexivity.
Defined.

(** C7 as stated fails: with a pod at the source and only a service at
    the destination, the emitted metric has no source_* tag, while the
    same event sent to a pod gets them. *)
Lemma Convert_service_target_no_source_tags :
  ∃ out, Convert samples.directory 0 (samples.http_event 200 "10.0.0.3") = Some out ∧
    GetPodByUID samples.directory "10.0.0.1" = Some samples.client ∧
    GetPodByUID samples.directory "10.0.0.3" = None ∧
    GetService samples.directory "10.0.0.3" = Some samples.frontdoor ∧
    Tags out !! "source_application_id" = None ∧
    Tags out !! "source_service_name" = None ∧
    Tags out !! "source_workspace" = None ∧
    filter (λ kv, String.prefix "source_" kv.1 = true) (Tags out) = ∅.
Proof.
  eexists. split; [reflexivity|]. repeat split; vm_compute; reflexivity.
Qed.

End meta_spec.

(** * Properties of the RPC enricher *)
Module rpc_spec.

Import corev1 kprobe metric regexp rpc.

(** [FindStringSubmatch pathRegexp] returns nil or five strings, so the
    test [len(parseLine) == 5] asks whether the pattern matched. *)
Lemma pathRegexp_submatch_shape (s : string) :
  FindStringSubmatch pathRegexp s = [] ∨
  ∃ g0 g1 g2 g3 g4, FindStringSubmatch pathRegexp s = [g0; g1; g2; g3; g4].
Proof.
  unfold FindStringSubmatch.
  destruct (search pathRegexp s) as [[g0 caps]|]; [right|by left].
  by eexists _, _, _, _, _.
Qed.

(** The pattern as a language: a word of [pathRegexp] is four groups
    around a "!", each in its class. *)
Lemma pathRegexp_matches w caps :
  matches pathRegexp w ∅ caps ↔
  ∃ g1 g2 g3 g4,
    w = g1 +:+ "!" +:+ g2 +:+ g3 +:+ g4 ∧
    all_in dot g1 = true ∧
    (g2 ≠ "" ∧ all_in service_char g2 = true) ∧
    (g3 ≠ "" ∧ all_in version_char g3 = true) ∧
    (g4 ≠ "" ∧ all_in method_char g4 = true) ∧
    caps = <[4%nat := g4]> (<[3%nat := g3]> (<[2%nat := g2]> (<[1%nat := g1]> ∅))).
Proof.
  unfold pathRegexp. cbn [matches]. split.
  - intros (w1 & w2 & c1 & -> & (c1' & [H1 ->] & ->) &
            wb & w3 & c2 & -> & [-> ->] &
            w4 & w5 & c3 & -> & (c3' & (Hn2 & H2 & ->) & ->) &
            w6 & w7 & c4 & -> & (c4' & (Hn3 & H3 & ->) & ->) &
            c5' & (Hn4 & H4 & ->) & ->).
    by exists w1, w4, w6, w7.
  - intros (g1 & g2 & g3 & g4 & -> & H1 & [Hn2 H2] & [Hn3 H3] & [Hn4 H4] & ->).
    exists g1, ("!" +:+ g2 +:+ g3 +:+ g4), (<[1%nat := g1]> ∅).
    split; [done|]. split; [by exists ∅|].
    exists "!", (g2 +:+ g3 +:+ g4), (<[1%nat := g1]> ∅).
    split; [done|]. split; [done|].
    exists g2, (g3 +:+ g4), (<[2%nat := g2]> (<[1%nat := g1]> ∅)).
    split; [done|]. split; [by eexists|].
    exists g3, g4, (<[3%nat := g3]> (<[2%nat := g2]> (<[1%nat := g1]> ∅))).
    split; [done|]. split; by eexists.
Qed.

(** X16: what [FindStringSubmatch pathRegexp] returns is a match: the
    whole match stands in the path and is the four groups around a "!",
    each group in its class. *)
Lemma FindStringSubmatch_pathRegexp_sound path g0 g1 g2 g3 g4 :
  FindStringSubmatch pathRegexp path = [g0; g1; g2; g3; g4] →
  (∃ pre post, path = pre +:+ g0 +:+ post) ∧
  g0 = g1 +:+ "!" +:+ g2 +:+ g3 +:+ g4 ∧
  all_in dot g1 = true ∧
  (g2 ≠ "" ∧ all_in service_char g2 = true) ∧
  (g3 ≠ "" ∧ all_in version_char g3 = true) ∧
  (g4 ≠ "" ∧ all_in method_char g4 = true).
Proof.
  unfold FindStringSubmatch.
  destruct (search pathRegexp path) as [[w caps]|] eqn:Hsearch; [|done].
  apply regexp_spec.search_sound in Hsearch as (pre & post & -> & Hm).
  apply pathRegexp_matches in Hm
    as (h1 & h2 & h3 & h4 & -> & H1 & H2 & H3 & H4 & ->).
  intros [= <- <- <- <- <-]. split; [by exists pre, post|]. done.
Qed.

Lemma FindStringSubmatch_pathRegexp_sound_witness :
  (∃ pre post, "x: 2.0!a.B1.2/m;v tail" = pre +:+ "x: 2.0!a.B1.2/m;v" +:+ post) ∧
  "x: 2.0!a.B1.2/m;v" = "x: 2.0" +:+ "!" +:+ "a.B" +:+ "1.2" +:+ "/m;v" ∧
  all_in dot "x: 2.0" = true ∧
  ("a.B" ≠ "" ∧ all_in service_char "a.B" = true) ∧
  ("1.2" ≠ "" ∧ all_in version_char "1.2" = true) ∧
  ("/m;v" ≠ "" ∧ all_in method_char "/m;v" = true).
Proof.
  apply (FindStringSubmatch_pathRegexp_sound "x: 2.0!a.B1.2/m;v tail").
  by vm_compute.
Defined.

(** And it returns a match whenever the path holds one. *)
Lemma FindStringSubmatch_pathRegexp_complete pre g1 g2 g3 g4 post :
  all_in dot g1 = true →
  g2 ≠ "" ∧ all_in service_char g2 = true →
  g3 ≠ "" ∧ all_in version_char g3 = true →
  g4 ≠ "" ∧ all_in method_char g4 = true →
  FindStringSubmatch pathRegexp
    (pre +:+ (g1 +:+ "!" +:+ g2 +:+ g3 +:+ g4) +:+ post) ≠ [].
Proof.
  intros H1 H2 H3 H4. unfold FindStringSubmatch.
  destruct (regexp_spec.search_complete pathRegexp
              (g1 +:+ "!" +:+ g2 +:+ g3 +:+ g4)
              (<[4%nat := g4]> (<[3%nat := g3]> (<[2%nat := g2]> (<[1%nat := g1]> ∅))))
              post pre) as [[g0 caps] ->]; [|done].
  apply pathRegexp_matches. by exists g1, g2, g3, g4.
Qed.

Lemma parse_path_match path g0 g1 g2 g3 g4 :
  FindStringSubmatch pathRegexp path = [g0; g1; g2; g3; g4] →
  parse_path path =
    {| rpcTarget := g2 +:+ "." +:+ g4; rpcMethod := g4; rpcService := g2;
       rpcVersion := g1; serviceVersion := g3 |}.
Proof. unfold parse_path. by intros ->. Qed.

Lemma parse_path_no_match path :
  FindStringSubmatch pathRegexp path = [] →
  parse_path path =
    {| rpcTarget := path; rpcMethod := ""; rpcService := "";
       rpcVersion := ""; serviceVersion := "" |}.
Proof. unfold parse_path. by intros ->. Qed.

(** Reading a tag map built by assignments. *)
Lemma tags_insert_eq (tags : gmap string string) (key v : string) :
  <[key := v]> tags !! key = Some v.
Proof. apply lookup_insert_eq. Qed.

Lemma tags_insert_ne (tags : gmap string string) (key key' v : string) :
  String.eqb key key' = false → <[key := v]> tags !! key' = tags !! key'.
Proof. intros Hne%String.eqb_neq. by apply lookup_insert_ne. Qed.

Lemma tags_empty (key : string) : (∅ : gmap string string) !! key = None.
Proof. apply lookup_empty. Qed.

Ltac read_tags :=
  cbn [Tags Name Measurement OrgName Timestamp Fields
       tag set_Tags set_OrgName set_Measurement set_Name];
  unfold Go.index;
  repeat first [ rewrite tags_insert_eq
               | rewrite tags_insert_ne by reflexivity
               | rewrite tags_empty ];
  cbn [default]; try reflexivity.

Section enricher.

Context {rpcebpf_RpcType : Type} `{EqDecision rpcebpf_RpcType}.
Variable RPC_TYPE_DUBBO : rpcebpf_RpcType.
Variable string_of_RpcType : rpcebpf_RpcType -> string.
Variable kprobeHelper : Interface.

Abbreviation Metric := (@rpc.Metric rpcebpf_RpcType).
Abbreviation convertRpc2Metric :=
  (rpc.convertRpc2Metric RPC_TYPE_DUBBO string_of_RpcType kprobeHelper).
Abbreviation framing_tags := (rpc.framing_tags RPC_TYPE_DUBBO).

(** The second lookup only adds source_* tags. *)
Lemma source_block_other sourcePod res (key : string) :
  String.prefix "source_" key = false →
  Tags (source_block sourcePod res) !! key = Tags res !! key.
Proof.
  intros Hkey. unfold source_block.
  cbn [Tags tag set_Tags].
  repeat (rewrite lookup_insert_ne; [|by intros <-]).
  done.
Qed.

(** The metric before the lookups. *)
Abbreviation start now m :=
  (tag "rpc_target" (rpcTarget (parse_path (Path m))) (res0 now m)).

Lemma start_tags now (m : Metric) :
  Tags (start now m) !! "rpc_target" = Some (rpcTarget (parse_path (Path m))) ∧
  Tags (start now m) !! "metric_source" = Some "ebpf" ∧
  Tags (start now m) !! "_meta" = Some "true" ∧
  Tags (start now m) !! "_metric_scope" = Some "micro_service".
Proof. unfold res0. repeat split; read_tags. Qed.

Lemma start_other now (m : Metric) (key : string) :
  forallb (λ k, negb (String.eqb key k))
    ["rpc_target"; "metric_source"; "_meta"; "_metric_scope"] = true →
  Tags (start now m) !! key = None.
Proof.
  intros Hkey. unfold res0. cbn [Tags tag set_Tags].
  repeat (rewrite lookup_insert_ne; [|by intros <-]).
  apply lookup_empty.
Qed.

Lemma target_head_other (m : Metric) targetPod res (key : string) :
  forallb (λ k, negb (String.eqb key k))
    ["cluster_name"; "component"; "db_host"; "method"; "_metric_scope_id"] = true →
  Tags (rpc.target_head string_of_RpcType m targetPod res) !! key = Tags res !! key.
Proof.
  intros Hkey. unfold rpc.target_head. cbn [Tags tag set_Tags set_OrgName].
  repeat (rewrite lookup_insert_ne; [|by intros <-]).
  done.
Qed.

Lemma framing_tags_other (m : Metric) v res (key : string) :
  forallb (λ k, negb (String.eqb key k))
    ["dubbo_service"; "dubbo_version"; "dubbo_method"; "service_version"; "error"] = true →
  Tags (framing_tags m v res) !! key = Tags res !! key.
Proof.
  intros Hkey. unfold rpc.framing_tags.
  destruct (decide (RpcType m = RPC_TYPE_DUBBO));
    [destruct (String.eqb (Status m) "20") | destruct (String.eqb (Status m) "200")];
    cbn [Tags tag set_Tags];
    repeat (rewrite lookup_insert_ne; [|by intros <-]); done.
Qed.

Lemma framing_tags_error (m : Metric) v res :
  Tags (framing_tags m v res) !! "error" =
    Some (if decide (RpcType m = RPC_TYPE_DUBBO)
          then (if String.eqb (Status m) "20" then "false" else "true")
          else (if String.eqb (Status m) "200" then "false" else "true")).
Proof.
  unfold rpc.framing_tags.
  destruct (decide (RpcType m = RPC_TYPE_DUBBO));
    [destruct (String.eqb (Status m) "20") | destruct (String.eqb (Status m) "200")];
    read_tags.
Qed.

Lemma framing_tags_dubbo (m : Metric) v res :
  RpcType m = RPC_TYPE_DUBBO →
  Tags (framing_tags m v res) !! "dubbo_service" = Some (rpcService v) ∧
  Tags (framing_tags m v res) !! "dubbo_method" = Some (rpcMethod v) ∧
  Tags (framing_tags m v res) !! "dubbo_version" = Some (rpcVersion v) ∧
  Tags (framing_tags m v res) !! "service_version" = Some (serviceVersion v).
Proof.
  intros Hd. unfold rpc.framing_tags.
  destruct (decide (RpcType m = RPC_TYPE_DUBBO)); [|done].
  destruct (String.eqb (Status m) "20"); repeat split; read_tags.
Qed.

Lemma framing_tags_not_dubbo (m : Metric) v res (key : string) :
  RpcType m ≠ RPC_TYPE_DUBBO →
  String.eqb key "error" = false →
  Tags (framing_tags m v res) !! key = Tags res !! key.
Proof.
  intros Hd Hkey%String.eqb_neq. unfold rpc.framing_tags.
  destruct (decide (RpcType m = RPC_TYPE_DUBBO)); [done|].
  destruct (String.eqb (Status m) "200"); cbn [Tags tag set_Tags];
    by rewrite lookup_insert_ne.
Qed.

Lemma target_tail_other (m : Metric) targetPod res (key : string) :
  String.prefix "target_" key = false →
  forallb (λ k, negb (String.eqb key k))
    ["host_ip"; "org_name"; "peer_address"; "peer_service"; "rpc_method";
     "rpc_service"; "span_kind"] = true →
  Tags (target_tail m targetPod res) !! key = Tags res !! key.
Proof.
  intros Hprefix Hkey. unfold target_tail. cbn [Tags tag set_Tags].
  repeat (rewrite lookup_insert_ne; [|by intros <-]).
  done.
Qed.

(** Lines 168-170 copy the Dubbo tags and set [span_kind]. *)
Lemma target_tail_tags (m : Metric) targetPod res :
  Tags (target_tail m targetPod res) !! "rpc_method" =
    Some (Go.index (Tags res) "dubbo_method") ∧
  Tags (target_tail m targetPod res) !! "rpc_service" =
    Some (Go.index (Tags res) "dubbo_service") ∧
  Tags (target_tail m targetPod res) !! "span_kind" = Some "server".
Proof. unfold target_tail. repeat split; read_tags. Qed.

(** The tags of the metric, in terms of the first lookup only. *)
Lemma convertRpc2Metric_tag now (m : Metric) (key : string) :
  String.prefix "source_" key = false →
  Tags (convertRpc2Metric now m) !! key =
    match GetPodByUID kprobeHelper (SrcIP m) with
    | Some targetPod =>
        Tags (target_tail m targetPod
               (framing_tags m (parse_path (Path m))
                 (rpc.target_head string_of_RpcType m targetPod (start now m)))) !! key
    | None => Tags (start now m) !! key
    end.
Proof.
  intros Hkey. unfold rpc.convertRpc2Metric, rpc.target_block.
  cbv zeta.
  destruct (GetPodByUID kprobeHelper (DstIP m)) as [sourcePod|];
    [rewrite source_block_other by done|];
    by destruct (GetPodByUID kprobeHelper (SrcIP m)).
Qed.

(** A tag that neither the tail nor the head of the first block writes
    is decided by the framing alone. *)
Ltac through_tail :=
  rewrite convertRpc2Metric_tag by reflexivity;
  lazymatch goal with
  | Hpod : GetPodByUID _ _ = _ |- _ => rewrite Hpod
  end;
  try rewrite target_tail_other by reflexivity.

(** The [error] tag as the code computes it, when the pod at [SrcIP] is
    known. *)
Lemma error_tag_resolved now (m : Metric) targetPod :
  GetPodByUID kprobeHelper (SrcIP m) = Some targetPod →
  Tags (convertRpc2Metric now m) !! "error" =
    Some (if decide (RpcType m = RPC_TYPE_DUBBO)
          then (if String.eqb (Status m) "20" then "false" else "true")
          else (if String.eqb (Status m) "200" then "false" else "true")).
Proof. intros Hpod. through_tail. apply framing_tags_error. Qed.

(** Without a pod at [SrcIP] only four tags exist. *)
Lemma tags_unresolved now (m : Metric) (key : string) :
  GetPodByUID kprobeHelper (SrcIP m) = None →
  String.prefix "source_" key = false →
  forallb (λ k, negb (String.eqb key k))
    ["rpc_target"; "metric_source"; "_meta"; "_metric_scope"] = true →
  Tags (convertRpc2Metric now m) !! key = None.
Proof.
  intros Hpod Hprefix Hkey.
  rewrite convertRpc2Metric_tag by done. rewrite Hpod.
  by apply start_other.
Qed.

(** [rpc_target] is never overwritten. *)
Lemma rpc_target_tag now (m : Metric) :
  Tags (convertRpc2Metric now m) !! "rpc_target" =
    Some (rpcTarget (parse_path (Path m))).
Proof.
  rewrite convertRpc2Metric_tag by reflexivity.
  destruct (GetPodByUID kprobeHelper (SrcIP m)).
  - rewrite target_tail_other, framing_tags_other, target_head_other by reflexivity.
    apply start_tags.
  - apply start_tags.
Qed.

(** The six derived tags under the Dubbo framing. *)
Lemma dubbo_tags_resolved now (m : Metric) targetPod :
  GetPodByUID kprobeHelper (SrcIP m) = Some targetPod →
  RpcType m = RPC_TYPE_DUBBO →
  let tags := Tags (convertRpc2Metric now m) in
  let v := parse_path (Path m) in
  tags !! "rpc_service" = Some (rpcService v) ∧
  tags !! "rpc_method" = Some (rpcMethod v) ∧
  tags !! "dubbo_service" = Some (rpcService v) ∧
  tags !! "dubbo_method" = Some (rpcMethod v) ∧
  tags !! "dubbo_version" = Some (rpcVersion v) ∧
  tags !! "service_version" = Some (serviceVersion v).
Proof.
  intros Hpod Hd. cbv zeta.
  pose proof (framing_tags_dubbo m (parse_path (Path m))
                (rpc.target_head string_of_RpcType m targetPod (start now m)) Hd)
    as (Hs & Hm & Hv & Hsv).
  repeat split; through_tail; try done.
  - rewrite (proj1 (proj2 (target_tail_tags _ _ _))). unfold Go.index. by rewrite Hs.
  - rewrite (proj1 (target_tail_tags _ _ _)). unfold Go.index. by rewrite Hm.
Qed.

(** The same six under any other framing. *)
Lemma other_framing_tags_resolved now (m : Metric) targetPod :
  GetPodByUID kprobeHelper (SrcIP m) = Some targetPod →
  RpcType m ≠ RPC_TYPE_DUBBO →
  let tags := Tags (convertRpc2Metric now m) in
  tags !! "rpc_service" = Some "" ∧
  tags !! "rpc_method" = Some "" ∧
  tags !! "dubbo_service" = None ∧
  tags !! "dubbo_method" = None ∧
  tags !! "dubbo_version" = None ∧
  tags !! "service_version" = None.
Proof.
  intros Hpod Hd. cbv zeta.
  assert (∀ key, String.eqb key "error" = false →
            forallb (λ k, negb (String.eqb key k))
              ["cluster_name"; "component"; "db_host"; "method"; "_metric_scope_id"] = true →
            forallb (λ k, negb (String.eqb key k))
              ["rpc_target"; "metric_source"; "_meta"; "_metric_scope"] = true →
            Tags (framing_tags m (parse_path (Path m))
                   (rpc.target_head string_of_RpcType m targetPod (start now m))) !! key
            = None) as Hnone.
  { intros key H1 H2 H3.
    rewrite framing_tags_not_dubbo, target_head_other by done.
    by apply start_other. }
  repeat split; through_tail.
  - rewrite (proj1 (proj2 (target_tail_tags _ _ _))). unfold Go.index.
    by rewrite Hnone.
  - rewrite (proj1 (target_tail_tags _ _ _)). unfold Go.index.
    by rewrite Hnone.
  - by apply Hnone.
  - by apply Hnone.
  - by apply Hnone.
  - by apply Hnone.
Qed.

(** No assignment writes [rpc_version]. *)
Lemma no_rpc_version_tag now (m : Metric) :
  Tags (convertRpc2Metric now m) !! "rpc_version" = None.
Proof.
  rewrite convertRpc2Metric_tag by reflexivity.
  destruct (GetPodByUID kprobeHelper (SrcIP m)).
  - rewrite target_tail_other, framing_tags_other, target_head_other by reflexivity.
    by apply start_other.
  - by apply start_other.
Qed.

(** C5, as the code has it: when the pod at the event's source address is
    known, the [error] tag is "false" exactly when the framing is Dubbo
    and the status is "20", or the framing is not Dubbo and the status is
    "200", and it is "true" otherwise.  When that pod is unknown the
    metric has no [error] tag. *)
Theorem convertRpc2Metric_error now (m : Metric) :
  let tags := Tags (convertRpc2Metric now m) in
  let success :=
    (RpcType m = RPC_TYPE_DUBBO ∧ Status m = "20") ∨
    (RpcType m ≠ RPC_TYPE_DUBBO ∧ Status m = "200") in
  (is_Some (GetPodByUID kprobeHelper (SrcIP m)) →
     (tags !! "error" = Some "false" ↔ success) ∧
     (tags !! "error" = Some "true" ↔ ¬ success)) ∧
  (GetPodByUID kprobeHelper (SrcIP m) = None → tags !! "error" = None).
Proof.
  cbv zeta. split.
  - intros [targetPod Hpod]. rewrite (error_tag_resolved now m targetPod Hpod).
    destruct (decide (RpcType m = RPC_TYPE_DUBBO)) as [Hd|Hd].
    + destruct (String.eqb_spec (Status m) "20") as [Hs|Hs];
        split; split; intuition (congruence || discriminate).
    + destruct (String.eqb_spec (Status m) "200") as [Hs|Hs];
        split; split; intuition (congruence || discriminate).
  - intros Hpod. by apply tags_unresolved.
Qed.

(** C3, as the code has it.  [rpc_target] is group 2, ".", group 4 when
    the pattern matches and the path otherwise.  The other values reach
    the tags only when the pod at the source address is known: under the
    Dubbo framing as [dubbo_service] = [rpc_service] = group 2,
    [dubbo_method] = [rpc_method] = group 4, [dubbo_version] = group 1 and
    [service_version] = group 3 (all empty without a match); under any
    other framing [rpc_service] and [rpc_method] are empty and the other
    four tags are missing.  No tag is called [rpc_version]. *)
Theorem convertRpc2Metric_path_tags now (m : Metric) :
  let tags := Tags (convertRpc2Metric now m) in
  let parseLine := FindStringSubmatch pathRegexp (Path m) in
  let resolved := is_Some (GetPodByUID kprobeHelper (SrcIP m)) in
  tags !! "rpc_version" = None ∧
  (parseLine = [] ∨ ∃ g0 g1 g2 g3 g4, parseLine = [g0; g1; g2; g3; g4]) ∧
  (∀ g0 g1 g2 g3 g4, parseLine = [g0; g1; g2; g3; g4] →
     tags !! "rpc_target" = Some (g2 +:+ "." +:+ g4) ∧
     (resolved → RpcType m = RPC_TYPE_DUBBO →
        tags !! "rpc_service" = Some g2 ∧ tags !! "rpc_method" = Some g4 ∧
        tags !! "dubbo_service" = Some g2 ∧ tags !! "dubbo_method" = Some g4 ∧
        tags !! "dubbo_version" = Some g1 ∧ tags !! "service_version" = Some g3)) ∧
  (parseLine = [] →
     tags !! "rpc_target" = Some (Path m) ∧
     (resolved → RpcType m = RPC_TYPE_DUBBO →
        tags !! "rpc_service" = Some "" ∧ tags !! "rpc_method" = Some "" ∧
        tags !! "dubbo_service" = Some "" ∧ tags !! "dubbo_method" = Some "" ∧
        tags !! "dubbo_version" = Some "" ∧ tags !! "service_version" = Some "")) ∧
  (resolved → RpcType m ≠ RPC_TYPE_DUBBO →
     tags !! "rpc_service" = Some "" ∧ tags !! "rpc_method" = Some "" ∧
     tags !! "dubbo_service" = None ∧ tags !! "dubbo_method" = None ∧
     tags !! "dubbo_version" = None ∧ tags !! "service_version" = None) ∧
  (GetPodByUID kprobeHelper (SrcIP m) = None →
     tags !! "rpc_service" = None ∧ tags !! "rpc_method" = None ∧
     tags !! "dubbo_service" = None ∧ tags !! "dubbo_method" = None ∧
     tags !! "dubbo_version" = None ∧ tags !! "service_version" = None).
Proof.
  cbv zeta. split; [|split; [|split; [|split; [|split]]]].
  - apply no_rpc_version_tag.
  - apply pathRegexp_submatch_shape.
  - intros g0 g1 g2 g3 g4 Hparse. split.
    + by rewrite rpc_target_tag, (parse_path_match _ _ _ _ _ _ Hparse).
    + intros [targetPod Hpod] Hd.
      pose proof (dubbo_tags_resolved now m targetPod Hpod Hd) as Htags.
      cbv zeta in Htags. by rewrite (parse_path_match _ _ _ _ _ _ Hparse) in Htags.
  - intros Hparse. split.
    + by rewrite rpc_target_tag, (parse_path_no_match _ Hparse).
    + intros [targetPod Hpod] Hd.
      pose proof (dubbo_tags_resolved now m targetPod Hpod Hd) as Htags.
      cbv zeta in Htags. by rewrite (parse_path_no_match _ Hparse) in Htags.
  - intros [targetPod Hpod] Hd. by apply (other_framing_tags_resolved now m targetPod).
  - intros Hpod. repeat split; by apply tags_unresolved.
Qed.

(** The common tags of the RPC path: three are always there, [span_kind]
    only with a pod at the source address. *)
Lemma convertRpc2Metric_common_tags now (m : Metric) :
  let tags := Tags (convertRpc2Metric now m) in
  tags !! "metric_source" = Some "ebpf" ∧
  tags !! "_meta" = Some "true" ∧
  tags !! "_metric_scope" = Some "micro_service" ∧
  (is_Some (GetPodByUID kprobeHelper (SrcIP m)) → tags !! "span_kind" = Some "server") ∧
  (GetPodByUID kprobeHelper (SrcIP m) = None → tags !! "span_kind" = None).
Proof.
  cbv zeta.
  assert (∀ key, String.prefix "source_" key = false →
            String.prefix "target_" key = false →
            forallb (λ k, negb (String.eqb key k))
              ["host_ip"; "org_name"; "peer_address"; "peer_service"; "rpc_method";
               "rpc_service"; "span_kind"] = true →
            forallb (λ k, negb (String.eqb key k))
              ["dubbo_service"; "dubbo_version"; "dubbo_method"; "service_version";
               "error"] = true →
            forallb (λ k, negb (String.eqb key k))
              ["cluster_name"; "component"; "db_host"; "method"; "_metric_scope_id"] = true →
            Tags (convertRpc2Metric now m) !! key = Tags (start now m) !! key) as Hkeep.
  { intros key H1 H2 H3 H4 H5. rewrite convertRpc2Metric_tag by done.
    destruct (GetPodByUID kprobeHelper (SrcIP m)); [|done].
    by rewrite target_tail_other, framing_tags_other, target_head_other. }
  rewrite !Hkeep by reflexivity.
  destruct (start_tags now m) as (_ & H1 & H2 & H3).
  repeat split; try done.
  - intros [targetPod Hpod]. rewrite convertRpc2Metric_tag by reflexivity.
    rewrite Hpod. apply target_tail_tags.
  - intros Hpod. by apply tags_unresolved.
Qed.

(** C9: an event whose status or path is empty leaves the outbound
    channel as it was; an event with both non-empty is converted and the
    result is sent.  Over a run, what is sent is the conversion of the
    events with both non-empty, in order. *)
Theorem sendMetrics_skips_empty :
  (∀ now (m : Metric) c, Status m = "" ∨ Path m = "" →
     sendMetrics_step RPC_TYPE_DUBBO string_of_RpcType kprobeHelper now m c = c) ∧
  (∀ now (m : Metric) c, Status m ≠ "" → Path m ≠ "" →
     sendMetrics_step RPC_TYPE_DUBBO string_of_RpcType kprobeHelper now m c =
       c ++ [convertRpc2Metric now m]) ∧
  (∀ (ch : list (Z * Metric)) c,
     sendMetrics RPC_TYPE_DUBBO string_of_RpcType kprobeHelper ch c =
       c ++ map (λ e, convertRpc2Metric e.1 e.2)
                (filter (λ e, Status e.2 ≠ "" ∧ Path e.2 ≠ "") ch)).
Proof.
  assert (∀ s : string, (Go.len s =? 0) = true ↔ s = "") as Hlen.
  { intros s. unfold Go.len. rewrite Z.eqb_eq. destruct s; [done|].
    cbn [String.length]. split; [lia|done]. }
  assert (∀ now (m : Metric) c, Status m = "" ∨ Path m = "" →
     sendMetrics_step RPC_TYPE_DUBBO string_of_RpcType kprobeHelper now m c = c) as Hskip.
  { intros now m c Hempty. unfold sendMetrics_step.
    destruct (Go.len (Status m) =? 0) eqn:Hs; [done|].
    destruct (Go.len (Path m) =? 0) eqn:Hp; [done|].
    destruct Hempty as [He|He]; apply Hlen in He; congruence. }
  assert (∀ now (m : Metric) c, Status m ≠ "" → Path m ≠ "" →
     sendMetrics_step RPC_TYPE_DUBBO string_of_RpcType kprobeHelper now m c =
       c ++ [convertRpc2Metric now m]) as Hsend.
  { intros now m c Hs Hp. unfold sendMetrics_step.
    destruct (Go.len (Status m) =? 0) eqn:Es; [by apply Hlen in Es|].
    destruct (Go.len (Path m) =? 0) eqn:Ep; [by apply Hlen in Ep|].
    done. }
  split; [done|]. split; [done|].
  induction ch as [|[now m] ch IH]; intros c.
  - cbn. by rewrite app_nil_r.
  - cbn [sendMetrics]. rewrite IH.
    destruct (decide (Status m ≠ "" ∧ Path m ≠ "")) as [[Hs Hp]|Hno].
    + rewrite filter_cons_True by done. rewrite Hsend by done.
      cbn [map fst snd]. by rewrite <- app_assoc.
    + rewrite filter_cons_False by done. rewrite Hskip; [done|].
      destruct (decide (Status m = "")); [by left|].
      destruct (decide (Path m = "")); [by right|]. by destruct Hno.
Qed.

End enricher.

(** ** Closed instances: the framing kinds are strings, [string(kind)] is
    the identity. *)

Abbreviation convert_sample k m :=
  (rpc.convertRpc2Metric samples.dubbo (λ kind : string, kind) k 0 m).

(** The order of preference on a few paths: group 1 gives back until the
    rest matches, the other groups take all they can, and a line feed
    stops group 1. *)
Example submatch_none : FindStringSubmatch pathRegexp "weird" = [].
Proof. by vm_compute. Qed.

Example submatch_gives_back :
  FindStringSubmatch pathRegexp "a!b!c.d..1.a1!x" =
    ["a!b!c.d..1.a"; "a!b"; "c.d.."; "1."; "a"].
Proof. by vm_compute. Qed.

Example submatch_shared_dot :
  FindStringSubmatch pathRegexp "q!a.b;;" = ["q!a.b;;"; "q"; "a"; "."; "b;;"].
Proof. by vm_compute. Qed.

Example submatch_second_line :
  FindStringSubmatch pathRegexp ("no bang" +:+ String "010" "x!a1b") =
    ["x!a1b"; "x"; "a"; "1"; "b"].
Proof. by vm_compute. Qed.

Lemma dubbo_call_submatch :
  FindStringSubmatch pathRegexp (Path samples.dubbo_call) =
    ["2.0.0!com.acme.Svc1.0.0/hello"; "2.0.0"; "com.acme.Svc"; "1.0.0"; "/hello"].
Proof. by vm_compute. Qed.

Lemma convertRpc2Metric_path_tags_witness :
  let tags := Tags (convert_sample samples.directory samples.dubbo_call) in
  tags !! "rpc_target" = Some "com.acme.Svc./hello" ∧
  tags !! "rpc_service" = Some "com.acme.Svc" ∧
  tags !! "rpc_method" = Some "/hello" ∧
  tags !! "dubbo_service" = Some "com.acme.Svc" ∧
  tags !! "dubbo_method" = Some "/hello" ∧
  tags !! "dubbo_version" = Some "2.0.0" ∧
  tags !! "service_version" = Some "1.0.0".
Proof.
  destruct (convertRpc2Metric_path_tags samples.dubbo (λ kind : string, kind)
              samples.directory 0 samples.dubbo_call) as (_ & _ & Hmatch & _).
  destruct (Hmatch _ _ _ _ _ dubbo_call_submatch) as [Htarget Hrest].
  split; [exact Htarget|].
  apply Hrest; [by eexists | reflexivity].
Defined.

(** C3 as stated fails: on a Dubbo call whose path matches, with the pod
    at the source address known, group 1 is "2.0.0" and the metric has no
    [rpc_version] tag; the same call under another framing has an empty
    [rpc_service]; and with no pod known there is no [rpc_service] at
    all. *)
Lemma rpc_version_tag_missing :
  FindStringSubmatch pathRegexp (Path samples.dubbo_call) =
    ["2.0.0!com.acme.Svc1.0.0/hello"; "2.0.0"; "com.acme.Svc"; "1.0.0"; "/hello"] ∧
  is_Some (GetPodByUID samples.directory (SrcIP samples.dubbo_call)) ∧
  Tags (convert_sample samples.directory samples.dubbo_call) !! "rpc_version" = None ∧
  Tags (convert_sample samples.directory
          (samples.rpc_event "2.0.0!com.acme.Svc1.0.0/hello" "200" "http"))
    !! "rpc_service" = Some "" ∧
  Tags (convert_sample samples.nobody samples.dubbo_call) !! "rpc_service" = None.
Proof.
  split; [exact dubbo_call_submatch|]. split; [by eexists|].
  repeat split; by vm_compute.
Qed.

Lemma convertRpc2Metric_error_witness :
  Tags (convert_sample samples.directory samples.dubbo_call) !! "error" = Some "false".
Proof.
  destruct (convertRpc2Metric_error samples.dubbo (λ kind : string, kind)
              samples.directory 0 samples.dubbo_call) as [Hresolved _].
  destruct Hresolved as [Hfalse _]; [by eexists|].
  apply Hfalse. left. split; reflexivity.
Defined.

(** C5 as stated fails: a Dubbo event with status "20" whose source
    address is no known pod yields a metric without an [error] tag. *)
Lemma error_tag_missing :
  RpcType samples.dubbo_call = samples.dubbo ∧
  Status samples.dubbo_call = "20" ∧
  GetPodByUID samples.nobody (SrcIP samples.dubbo_call) = None ∧
  Tags (convert_sample samples.nobody samples.dubbo_call) !! "error" = None.
Proof. repeat split; by vm_compute. Qed.

Lemma sendMetrics_skips_empty_witness :
  sendMetrics_step samples.dubbo (λ kind : string, kind) samples.directory 0
    (samples.rpc_event "" "20" samples.dubbo) [] = [] ∧
  sendMetrics_step samples.dubbo (λ kind : string, kind) samples.directory 0
    samples.dubbo_call [] = [convert_sample samples.directory samples.dubbo_call].
Proof.
  destruct (sendMetrics_skips_empty samples.dubbo (λ kind : string, kind)
              samples.directory) as (Hskip & Hsend & _).
  split.
  - apply Hskip. by right.
  - apply Hsend; discriminate.
Defined.

End rpc_spec.

(** * The tags common to both enrichers *)
Module enricher_spec.

Import corev1 kprobe metric.

(** C6, as the code has it: every metric of the HTTP path carries
    [metric_source=ebpf], [_meta=true], [_metric_scope=micro_service] and
    [span_kind=server]; every metric of the RPC path carries the first
    three, and [span_kind=server] exactly when the pod at the event's
    source address is known. *)
Theorem common_tags :
  (∀ (k : Interface) now m out,
     meta.Convert k now m = Some out →
     Tags out !! "metric_source" = Some "ebpf" ∧
     Tags out !! "_meta" = Some "true" ∧
     Tags out !! "_metric_scope" = Some "micro_service" ∧
     Tags out !! "span_kind" = Some "server") ∧
  (∀ (T : Type) (eq_dec : EqDecision T) (RPC_TYPE_DUBBO : T) (string_of_RpcType : T → string)
     (k : Interface) now (m : @rpc.Metric T),
     let tags := Tags (rpc.convertRpc2Metric RPC_TYPE_DUBBO string_of_RpcType k now m) in
     tags !! "metric_source" = Some "ebpf" ∧
     tags !! "_meta" = Some "true" ∧
     tags !! "_metric_scope" = Some "micro_service" ∧
     (is_Some (GetPodByUID k (rpc.SrcIP m)) → tags !! "span_kind" = Some "server") ∧
     (GetPodByUID k (rpc.SrcIP m) = None → tags !! "span_kind" = None)).
Proof.
  split.
  - apply meta_spec.Convert_common_tags.
  - intros. apply rpc_spec.convertRpc2Metric_common_tags.
Qed.

Lemma common_tags_witness :
  ∃ out, meta.Convert samples.directory 0 (samples.http_event 200 "10.0.0.3") = Some out ∧
    Tags out !! "metric_source" = Some "ebpf" ∧
    Tags out !! "_meta" = Some "true" ∧
    Tags out !! "_metric_scope" = Some "micro_service" ∧
    Tags out !! "span_kind" = Some "server".
Proof.
  eexists. split; [reflexivity|].
  apply (proj1 common_tags samples.directory 0 (samples.http_event 200 "10.0.0.3")).
  reflexivity.
Defined.

(** C6 as stated fails: an RPC event whose source address is no known pod
    yields a metric without [span_kind]. *)
Lemma span_kind_missing :
  GetPodByUID samples.nobody (rpc.SrcIP samples.dubbo_call) = None ∧
  Tags (rpc.convertRpc2Metric samples.dubbo (λ kind : string, kind) samples.nobody 0
          samples.dubbo_call) !! "span_kind" = None.
Proof. split; by vm_compute. Qed.

End enricher_spec.

(** * Properties of the probe registry *)
Module registry_spec.

Import kprobe rpc.

Lemma loads_do e p :
  loads (trace (do e p)) = (loads (trace p) + (if is_load e then 1 else 0))%nat.
Proof.
  unfold loads, do. cbn [trace].
  rewrite filter_app, length_app. by destruct e.
Qed.

Section Gather.

Variable Load : list effect -> Ebpf -> option string.

Abbreviation handle := (rpc.handle Load).
Abbreviation event_loop := (rpc.event_loop Load).
Abbreviation load_vethes := (rpc.load_vethes Load).

(** The line that logs an Add. *)
Abbreviation logged_add event p :=
  (do (EInfof_veth_add (Link_Index (Veth event)) (Neigh_IP (Veth event))) p).

(** The probe an Add builds. *)
Abbreviation proj_of event :=
  (NewEbpf (Link_Index (Veth event)) (Neigh_IP (Veth event))).

(** An Add for an interface that has a probe only logs. *)
Lemma handle_add_present event p proj :
  Type_ event = LinkAdd →
  rpcProbes p !! Link_Index (Veth event) = Some proj →
  handle event p = Running (logged_add event p).
Proof.
  intros Hty Hin. unfold rpc.handle. rewrite Hty. cbn [rpcProbes do].
  by rewrite Hin.
Qed.

(** An Add for an interface without a probe loads one. *)
Lemma handle_add_absent event p :
  Type_ event = LinkAdd →
  rpcProbes p !! Link_Index (Veth event) = None →
  handle event p =
    match Load (trace (logged_add event p)) (proj_of event) with
    | Some err => Fatalf (do (ELoad (proj_of event)) (logged_add event p)) err
    | None =>
        Running (set_rpcProbes (insert (Link_Index (Veth event)) (proj_of event))
                   (do (ELoad (proj_of event)) (logged_add event p)))
    end.
Proof.
  intros Hty Hout. unfold rpc.handle. rewrite Hty. cbn [rpcProbes do].
  by rewrite Hout.
Qed.

(** Repeating an Add for an interface that has a probe changes neither
    the mapping nor the number of loads. *)
Lemma repeated_add_present event n : ∀ p proj,
  Type_ event = LinkAdd →
  rpcProbes p !! Link_Index (Veth event) = Some proj →
  ∃ p', event_loop (replicate n event) p = Running p' ∧
        rpcProbes p' = rpcProbes p ∧
        loads (trace p') = loads (trace p).
Proof.
  induction n as [|n IH]; intros p proj Hty Hin.
  - by exists p.
  - cbn [replicate rpc.event_loop].
    rewrite (handle_add_present event p proj Hty Hin).
    destruct (IH (logged_add event p) proj Hty Hin) as (p' & Hrun & Hmap & Hloads).
    exists p'. split; [done|]. split; [done|].
    rewrite Hloads, loads_do. cbn [is_load]. lia.
Qed.

(** C8: an Add for an interface that already has a probe calls no load
    and leaves the mapping as it was; so one or more Adds of the same
    descriptor, starting without a probe for it, make exactly one load,
    and when that load succeeds the mapping gains exactly that probe. *)
Theorem Add_idempotent :
  (∀ event p proj,
     Type_ event = LinkAdd →
     rpcProbes p !! Link_Index (Veth event) = Some proj →
     ∃ p', handle event p = Running p' ∧
           rpcProbes p' = rpcProbes p ∧
           loads (trace p') = loads (trace p)) ∧
  (∀ event p n,
     Type_ event = LinkAdd →
     rpcProbes p !! Link_Index (Veth event) = None →
     (∃ p', (event_loop (replicate (S n) event) p = Running p' ∨
             ∃ err, event_loop (replicate (S n) event) p = Fatalf p' err) ∧
            loads (trace p') = S (loads (trace p))) ∧
     (Load (trace (logged_add event p)) (proj_of event) = None →
      ∃ p', event_loop (replicate (S n) event) p = Running p' ∧
            rpcProbes p' = <[Link_Index (Veth event) := proj_of event]> (rpcProbes p))).
Proof.
  split.
  - intros event p proj Hty Hin. exists (logged_add event p).
    split; [by apply (handle_add_present event p proj)|]. split; [done|].
    rewrite loads_do. cbn [is_load]. lia.
  - intros event p n Hty Hout.
    cbn [replicate rpc.event_loop]. rewrite (handle_add_absent event p Hty Hout).
    destruct (Load (trace (logged_add event p)) (proj_of event)) as [err|] eqn:Hload.
    + split; [|done].
      eexists. split; [right; by exists err|].
      rewrite !loads_do. cbn [is_load]. lia.
    + set (p1 := set_rpcProbes _ _).
      assert (rpcProbes p1 !! Link_Index (Veth event) = Some (proj_of event)) as Hin.
      { unfold p1. cbn [rpcProbes set_rpcProbes do]. apply lookup_insert_eq. }
      destruct (repeated_add_present event n p1 _ Hty Hin) as (p' & Hrun & Hmap & Hloads).
      split.
      * exists p'. split; [by left|]. rewrite Hloads.
        unfold p1. cbn [trace set_rpcProbes].
        rewrite !loads_do. cbn [is_load]. lia.
      * intros _. exists p'. split; [done|]. by rewrite Hmap.
Qed.

(** C1, as the code has it: a load that fails ends the run.  [log.Fatalf]
    prints the error and exits the process, so whatever events follow are
    not handled; the interface is not inserted and the mapping is as it
    was.  The loop over the snapshot ends the same way. *)
Theorem load_failure_is_fatal :
  (∀ event rest p err,
     Type_ event = LinkAdd →
     rpcProbes p !! Link_Index (Veth event) = None →
     Load (trace (logged_add event p)) (proj_of event) = Some err →
     ∃ p', event_loop (event :: rest) p = Fatalf p' err ∧
           rpcProbes p' = rpcProbes p ∧
           trace p' = trace p ++ [EInfof_veth_add (Link_Index (Veth event)) (Neigh_IP (Veth event));
                                  ELoad (proj_of event)]) ∧
  (∀ veth rest p err,
     Load (trace p) (NewEbpf (Link_Index veth) (Neigh_IP veth)) = Some err →
     ∃ p', load_vethes (veth :: rest) p = Fatalf p' err ∧
           rpcProbes p' = rpcProbes p).
Proof.
  split.
  - intros event rest p err Hty Hout Hload.
    cbn [rpc.event_loop]. rewrite (handle_add_absent event p Hty Hout), Hload.
    eexists. split; [done|]. split; [done|].
    cbn [trace do]. by rewrite <- app_assoc.
  - intros veth rest p err Hload.
    cbn [rpc.load_vethes]. unfold load_veth. rewrite Hload.
    by eexists.
Qed.

End Gather.

Lemma Add_idempotent_witness :
  ∃ p', rpc.event_loop samples.load_ok (replicate 3 (samples.add 1 "10.0.0.1")) samples.fresh = Running p' ∧
        rpcProbes p' = <[1 := NewEbpf 1 "10.0.0.1"]> (rpcProbes samples.fresh).
Proof.
  apply (proj2 (Add_idempotent samples.load_ok) (samples.add 1 "10.0.0.1") samples.fresh 2%nat);
    reflexivity.
Defined.

Lemma load_failure_is_fatal_witness :
  ∃ p', rpc.event_loop samples.load_fails_on_2
          [samples.add 2 "10.0.0.2"; samples.add 3 "10.0.0.3"] samples.fresh
        = Fatalf p' "load: permission denied" ∧
        rpcProbes p' = rpcProbes samples.fresh ∧
        trace p' = trace samples.fresh ++ [EInfof_veth_add 2 "10.0.0.2"; ELoad (NewEbpf 2 "10.0.0.2")].
Proof.
  apply (proj1 (load_failure_is_fatal samples.load_fails_on_2)
           (samples.add 2 "10.0.0.2") [samples.add 3 "10.0.0.3"] samples.fresh);
    reflexivity.
Defined.

(** C1 as stated fails: when the load for interface 2 fails, the run ends
    in [log.Fatalf]; the Add for interface 3 that follows is never
    handled, though its load would succeed, and a run without the failing
    Add does load it. *)
Lemma load_failure_aborts_Gather :
  samples.load_fails_on_2 [] (NewEbpf 3 "10.0.0.3") = None ∧
  (∃ p', Gather samples.load_fails_on_2 None samples.directory
           [samples.add 1 "10.0.0.1"; samples.add 2 "10.0.0.2"; samples.add 3 "10.0.0.3"]
         = Fatalf p' "load: permission denied" ∧
         rpcProbes p' !! 3 = None ∧
         loads (trace p') = 2%nat) ∧
  (∃ p', Gather samples.load_fails_on_2 None samples.directory
           [samples.add 1 "10.0.0.1"; samples.add 3 "10.0.0.3"]
         = Running p' ∧
         rpcProbes p' !! 3 = Some (NewEbpf 3 "10.0.0.3")).
Proof.
  split; [reflexivity|]. split; eexists; (split; [reflexivity|]); by vm_compute.
Qed.

End registry_spec.

(** * More on the probe registry: Remove, the mapping over a run, the
      ways a run ends *)
Module registry_more.

Import kprobe rpc observer.

Lemma closes_do e p :
  closes (trace (do e p)) = (closes (trace p) + (if is_close e then 1 else 0))%nat.
Proof.
  unfold closes, do. cbn [trace].
  rewrite filter_app, length_app. by destruct e.
Qed.

Section Gather.

Variable Load : list effect -> Ebpf -> option string.

Abbreviation handle := (rpc.handle Load).
Abbreviation event_loop := (rpc.event_loop Load).
Abbreviation load_vethes := (rpc.load_vethes Load).

Abbreviation logged_delete event p :=
  (do (EInfof_veth_delete (Link_Index (Veth event)) (Neigh_IP (Veth event))) p).

Lemma handle_delete_present event p proj :
  Type_ event = LinkDelete →
  rpcProbes p !! Link_Index (Veth event) = Some proj →
  handle event p =
    Running (set_rpcProbes (delete (Link_Index (Veth event)))
               (do (EClose proj) (logged_delete event p))).
Proof.
  intros Hty Hin. unfold rpc.handle. rewrite Hty. cbn [rpcProbes do].
  by rewrite Hin.
Qed.

Lemma handle_delete_absent event p :
  Type_ event = LinkDelete →
  rpcProbes p !! Link_Index (Veth event) = None →
  handle event p = Running (logged_delete event p).
Proof.
  intros Hty Hout. unfold rpc.handle. rewrite Hty. cbn [rpcProbes do].
  by rewrite Hout.
Qed.

(** Removes of an interface without a probe change nothing but the log. *)
Lemma repeated_delete_absent event n : ∀ p,
  Type_ event = LinkDelete →
  rpcProbes p !! Link_Index (Veth event) = None →
  ∃ p', event_loop (replicate n event) p = Running p' ∧
        rpcProbes p' = rpcProbes p ∧
        closes (trace p') = closes (trace p) ∧
        loads (trace p') = loads (trace p).
Proof.
  induction n as [|n IH]; intros p Hty Hout.
  - by exists p.
  - cbn [replicate rpc.event_loop]. rewrite (handle_delete_absent event p Hty Hout).
    destruct (IH (logged_delete event p) Hty Hout) as (p' & Hrun & Hmap & Hc & Hl).
    exists p'. split; [done|]. split; [done|].
    rewrite Hc, Hl, closes_do, registry_spec.loads_do. cbn [is_close is_load].
    split; lia.
Qed.

(** What one event does to the mapping and to the counts of loads and
    closes, when the run goes on. *)
Lemma handle_Running event p p' :
  handle event p = Running p' →
  dom (rpcProbes p') = interfaces_after [event] (dom (rpcProbes p)) ∧
  (keyed (rpcProbes p) → keyed (rpcProbes p')) ∧
  (size (rpcProbes p') + closes (trace p') + loads (trace p) =
   size (rpcProbes p) + closes (trace p) + loads (trace p'))%nat.
Proof.
  unfold interfaces_after. cbn [foldl].
  destruct (Type_ event) as [| |code] eqn:Hty.
  - destruct (rpcProbes p !! Link_Index (Veth event)) as [old|] eqn:Hin.
    + rewrite (registry_spec.handle_add_present Load event p old Hty Hin).
      intros [= <-]. rewrite closes_do, registry_spec.loads_do.
      cbn [rpcProbes set_rpcProbes do is_close is_load].
      split; [|split; [done|lia]].
      apply elem_of_dom_2 in Hin. symmetry. apply subseteq_union_1_L.
      by apply singleton_subseteq_l.
    + rewrite (registry_spec.handle_add_absent Load event p Hty Hin).
      destruct (Load _ _); [done|]. intros [= <-].
      cbn [trace set_rpcProbes]. rewrite !closes_do, !registry_spec.loads_do.
      cbn [rpcProbes set_rpcProbes do is_close is_load].
      split; [by rewrite dom_insert_L|]. split.
      * intros Hkeyed. by apply map_Forall_insert_2.
      * rewrite map_size_insert_None by done. lia.
  - destruct (rpcProbes p !! Link_Index (Veth event)) as [old|] eqn:Hin.
    + rewrite (handle_delete_present event p old Hty Hin).
      intros [= <-].
      cbn [trace set_rpcProbes]. rewrite !closes_do, !registry_spec.loads_do.
      cbn [rpcProbes set_rpcProbes do is_close is_load].
      split; [by rewrite dom_delete_L|]. split.
      * intros Hkeyed. by apply map_Forall_delete.
      * rewrite map_size_delete, Hin.
        assert (size (rpcProbes p) ≠ 0%nat).
        { intros Hz%map_size_empty_iff. by rewrite Hz, lookup_empty in Hin. }
        lia.
    + rewrite (handle_delete_absent event p Hty Hin).
      intros [= <-]. rewrite closes_do, registry_spec.loads_do.
      cbn [rpcProbes set_rpcProbes do is_close is_load].
      split; [|split; [done|lia]].
      apply not_elem_of_dom in Hin. symmetry. apply difference_disjoint_L.
      by apply disjoint_singleton_r.
  - unfold rpc.handle. rewrite Hty. intros [= <-].
    rewrite closes_do, registry_spec.loads_do.
    cbn [rpcProbes set_rpcProbes do is_close is_load]. split; [done|]. split; [done|lia].
Qed.

(** A run that goes on went on at every event. *)
Lemma event_loop_cons_Running event rest p p' :
  event_loop (event :: rest) p = Running p' →
  ∃ p1, handle event p = Running p1 ∧ event_loop rest p1 = Running p'.
Proof.
  cbn [rpc.event_loop]. destruct (handle event p) as [p1| |]; [|done..].
  intros Hrest. by exists p1.
Qed.

(** An event stops the run only through a load that failed; the mapping
    is then as it was. *)
Lemma handle_Fatalf event p p' err :
  handle event p = Fatalf p' err →
  rpcProbes p' = rpcProbes p ∧
  closes (trace p') = closes (trace p) ∧
  loads (trace p') = S (loads (trace p)) ∧
  ∃ tr proj, trace p' = tr ++ [ELoad proj] ∧ Load tr proj = Some err.
Proof.
  unfold rpc.handle. cbv zeta.
  destruct (Type_ event); [|by destruct (rpcProbes _ !! _)|done].
  destruct (rpcProbes _ !! _); [done|].
  destruct (Load _ _) as [err'|] eqn:Hload; [|done].
  intros [= <- <-]. rewrite !closes_do, !registry_spec.loads_do.
  cbn [rpcProbes do trace is_close is_load].
  split; [done|]. split; [lia|]. split; [lia|]. by eexists _, _.
Qed.

Lemma handle_no_Panic event p err : handle event p ≠ Panic err.
Proof.
  unfold rpc.handle. cbv zeta.
  destruct (Type_ event); [|by destruct (rpcProbes _ !! _)|done].
  destruct (rpcProbes _ !! _); [done|]. by destruct (Load _ _).
Qed.

Lemma event_loop_no_Panic events : ∀ p err, event_loop events p ≠ Panic err.
Proof.
  induction events as [|event rest IH]; intros p err; [done|].
  cbn [rpc.event_loop].
  destruct (handle event p) as [p1| |err'] eqn:Hh; [apply IH|done|].
  by apply handle_no_Panic in Hh.
Qed.

(** The loop over the snapshot, turn by turn. *)
Lemma load_veth_Running veth p p' :
  load_veth Load veth p = Running p' →
  rpcProbes p' =
    <[Link_Index veth := NewEbpf (Link_Index veth) (Neigh_IP veth)]> (rpcProbes p) ∧
  loads (trace p') = S (loads (trace p)) ∧
  closes (trace p') = closes (trace p).
Proof.
  unfold load_veth. cbv zeta. destruct (Load _ _); [done|].
  intros [= <-]. cbn [trace set_rpcProbes].
  rewrite closes_do, registry_spec.loads_do. cbn [rpcProbes set_rpcProbes do is_close is_load].
  split; [done|]. split; lia.
Qed.

Lemma load_vethes_cons_Running veth rest p p' :
  load_vethes (veth :: rest) p = Running p' →
  ∃ p1, load_veth Load veth p = Running p1 ∧ load_vethes rest p1 = Running p'.
Proof.
  cbn [rpc.load_vethes]. destruct (load_veth Load veth p) as [p1| |]; [|done..].
  intros Hrest. by exists p1.
Qed.

Lemma load_vethes_no_Panic vethes : ∀ p err, load_vethes vethes p ≠ Panic err.
Proof.
  induction vethes as [|veth rest IH]; intros p err; [done|].
  cbn [rpc.load_vethes]. unfold load_veth. cbv zeta.
  destruct (Load _ _); [done|]. apply IH.
Qed.

Lemma load_vethes_Fatalf vethes : ∀ p p' err,
  load_vethes vethes p = Fatalf p' err →
  (keyed (rpcProbes p) → keyed (rpcProbes p')) ∧
  ∃ tr proj, trace p' = tr ++ [ELoad proj] ∧ Load tr proj = Some err.
Proof.
  induction vethes as [|veth rest IH]; intros p p' err; [done|].
  cbn [rpc.load_vethes].
  destruct (load_veth Load veth p) as [p1| |] eqn:Hturn.
  - intros Hrest. destruct (IH _ _ _ Hrest) as [Hk Hlast]. split; [|done].
    intros Hkeyed. apply Hk.
    apply load_veth_Running in Hturn as (-> & _ & _).
    by apply map_Forall_insert_2.
  - intros [= <- <-]. unfold load_veth in Hturn. cbv zeta in Hturn.
    destruct (Load _ _) as [err'|] eqn:Hload; [|done].
    injection Hturn as <- <-. split; [done|]. by eexists _, _.
  - done.
Qed.

Lemma load_vethes_keyed vethes : ∀ p p',
  load_vethes vethes p = Running p' → keyed (rpcProbes p) → keyed (rpcProbes p').
Proof.
  induction vethes as [|veth rest IH]; intros p p'.
  - by intros [= <-].
  - intros (p1 & Hturn & Hrest)%load_vethes_cons_Running Hkeyed.
    apply (IH _ _ Hrest).
    apply load_veth_Running in Hturn as (-> & _ & _).
    by apply map_Forall_insert_2.
Qed.

Lemma event_loop_keyed events : ∀ p p',
  event_loop events p = Running p' → keyed (rpcProbes p) → keyed (rpcProbes p').
Proof.
  induction events as [|event rest IH]; intros p p'.
  - by intros [= <-].
  - intros (p1 & Hturn & Hrest)%event_loop_cons_Running Hkeyed.
    apply (IH _ _ Hrest). by apply (handle_Running event p p1).
Qed.

Lemma event_loop_Fatalf events : ∀ p p' err,
  event_loop events p = Fatalf p' err →
  (keyed (rpcProbes p) → keyed (rpcProbes p')) ∧
  ∃ tr proj, trace p' = tr ++ [ELoad proj] ∧ Load tr proj = Some err.
Proof.
  induction events as [|event rest IH]; intros p p' err; [done|].
  cbn [rpc.event_loop].
  destruct (handle event p) as [p1| |] eqn:Hturn.
  - intros Hrest. destruct (IH _ _ _ Hrest) as [Hk Hlast]. split; [|done].
    intros Hkeyed. apply Hk. by apply (handle_Running event p p1).
  - intros [= <- <-]. apply handle_Fatalf in Hturn as (-> & _ & _ & Hlast). by split.
  - done.
Qed.

(** A run only adds to what it has done. *)
Lemma handle_trace_grows event p p' :
  handle event p = Running p' → ∃ more, trace p' = trace p ++ more.
Proof.
  unfold rpc.handle. cbv zeta.
  destruct (Type_ event).
  - destruct (rpcProbes _ !! _).
    + intros [= <-]. by eexists.
    + destruct (Load _ _); [done|]. intros [= <-].
      cbn [trace set_rpcProbes do]. rewrite <- app_assoc. by eexists.
  - destruct (rpcProbes _ !! _).
    + intros [= <-]. cbn [trace set_rpcProbes do]. rewrite <- app_assoc.
      by eexists.
    + intros [= <-]. by eexists.
  - intros [= <-]. by eexists.
Qed.

Lemma event_loop_trace_grows events : ∀ p p',
  event_loop events p = Running p' → ∃ more, trace p' = trace p ++ more.
Proof.
  induction events as [|event rest IH]; intros p p'.
  - intros [= <-]. exists []. by rewrite app_nil_r.
  - intros (p1 & Hturn & Hrest)%event_loop_cons_Running.
    destruct (IH _ _ Hrest) as [more ->].
    destruct (handle_trace_grows _ _ _ Hturn) as [one ->].
    rewrite <- app_assoc. by eexists.
Qed.

Lemma interfaces_after_cons event rest present :
  interfaces_after (event :: rest) present =
    interfaces_after rest (interfaces_after [event] present).
Proof. reflexivity. Qed.

(** X1: Remove is idempotent.  One or more Removes of an interface that
    has a probe close that probe exactly once, delete its entry and load
    nothing; Removes of an interface without a probe leave the mapping as
    it is and close nothing. *)
Theorem Remove_idempotent :
  (∀ event p proj n,
     Type_ event = LinkDelete →
     rpcProbes p !! Link_Index (Veth event) = Some proj →
     ∃ p', event_loop (replicate (S n) event) p = Running p' ∧
           rpcProbes p' = delete (Link_Index (Veth event)) (rpcProbes p) ∧
           closes (trace p') = S (closes (trace p)) ∧
           EClose proj ∈ trace p' ∧
           loads (trace p') = loads (trace p)) ∧
  (∀ event p n,
     Type_ event = LinkDelete →
     rpcProbes p !! Link_Index (Veth event) = None →
     ∃ p', event_loop (replicate n event) p = Running p' ∧
           rpcProbes p' = rpcProbes p ∧
           closes (trace p') = closes (trace p) ∧
           loads (trace p') = loads (trace p)).
Proof.
  split.
  - intros event p proj n Hty Hin.
    cbn [replicate rpc.event_loop]. rewrite (handle_delete_present event p proj Hty Hin).
    set (p1 := set_rpcProbes _ _).
    assert (rpcProbes p1 !! Link_Index (Veth event) = None) as Hout.
    { unfold p1. cbn [rpcProbes set_rpcProbes do]. apply lookup_delete_eq. }
    destruct (repeated_delete_absent event n p1 Hty Hout) as (p' & Hrun & Hmap & Hc & Hl).
    exists p'. split; [done|]. split; [by rewrite Hmap|].
    destruct (event_loop_trace_grows _ _ _ Hrun) as [more Htrace].
    split; [|split].
    + rewrite Hc. unfold p1. cbn [trace set_rpcProbes].
      rewrite !closes_do. cbn [is_close]. lia.
    + rewrite Htrace. unfold p1. cbn [trace set_rpcProbes do].
      rewrite !elem_of_app. left. right. by apply list_elem_of_singleton.
    + rewrite Hl. unfold p1. cbn [trace set_rpcProbes].
      rewrite !registry_spec.loads_do. cbn [is_load]. lia.
  - intros event p n Hty Hout. by apply repeated_delete_absent.
Qed.

(** What a run does to the set of interfaces with a probe. *)
Lemma event_loop_dom events : ∀ p p',
  event_loop events p = Running p' →
  dom (rpcProbes p') = interfaces_after events (dom (rpcProbes p)).
Proof.
  induction events as [|event rest IH]; intros p p'.
  - by intros [= <-].
  - intros (p1 & Hturn & Hrest)%event_loop_cons_Running.
    rewrite interfaces_after_cons, (IH _ _ Hrest).
    by destruct (handle_Running event p p1 Hturn) as [-> _].
Qed.

Lemma load_vethes_dom vethes : ∀ p p',
  load_vethes vethes p = Running p' →
  dom (rpcProbes p') = dom (rpcProbes p) ∪ list_to_set (Link_Index <$> vethes).
Proof.
  induction vethes as [|veth rest IH]; intros p p'.
  - intros [= <-]. cbn. by rewrite (right_id_L ∅ (∪)).
  - intros (p1 & Hturn & Hrest)%load_vethes_cons_Running.
    rewrite (IH _ _ Hrest).
    apply load_veth_Running in Hturn as (-> & _ & _).
    rewrite dom_insert_L, fmap_cons. cbn [list_to_set].
    by rewrite (assoc_L (∪)), (comm_L (∪) (dom (rpcProbes p))).
Qed.

(** X2: registry correspondence.  Whenever [Gather] is still running, the
    interfaces with a probe are those of the snapshot and of the Adds,
    whose last event is not a Remove. *)
Theorem registry_correspondence spec_err (k : Interface) vethes events p :
  GetVethes k = inl vethes →
  Gather Load spec_err k events = Running p →
  dom (rpcProbes p) = interfaces_after events (list_to_set (Link_Index <$> vethes)).
Proof.
  intros Hsnap. unfold Gather. destruct spec_err; [done|]. rewrite Hsnap.
  destruct (load_vethes vethes _) as [p1| |] eqn:Hp1; [|done..].
  intros Hloop. rewrite (event_loop_dom _ _ _ Hloop), (load_vethes_dom _ _ _ Hp1).
  cbn [rpcProbes]. by rewrite dom_empty_L, (left_id_L ∅ (∪)).
Qed.

(** X3: every load is accounted for.  Over the events of a run, each
    probe that was loaded is in the mapping or was closed; when the run
    stops, the one load more is the load that failed. *)
Theorem event_loop_no_leak events : ∀ p p',
  (event_loop events p = Running p' →
     (size (rpcProbes p') + closes (trace p') + loads (trace p) =
      size (rpcProbes p) + closes (trace p) + loads (trace p'))%nat) ∧
  (∀ err, event_loop events p = Fatalf p' err →
     (size (rpcProbes p') + closes (trace p') + loads (trace p) + 1 =
      size (rpcProbes p) + closes (trace p) + loads (trace p'))%nat).
Proof.
  induction events as [|event rest IH]; intros p p'.
  - split; [by intros [= <-]|done].
  - cbn [rpc.event_loop].
    destruct (handle event p) as [p1|p1 err1|] eqn:Hturn.
    + destruct (handle_Running event p p1 Hturn) as (_ & _ & Hone).
      destruct (IH p1 p') as [Hrun Hstop].
      split; [intros Hrest; specialize (Hrun Hrest); lia|].
      intros err Hrest. specialize (Hstop err Hrest). lia.
    + split; [done|]. intros err [= <- <-].
      apply handle_Fatalf in Hturn as (-> & -> & -> & _). lia.
    + split; [done|]. done.
Qed.

(** Entries of the snapshot with other indices leave an entry alone. *)
Lemma load_vethes_other vethes index : ∀ p p',
  load_vethes vethes p = Running p' →
  index ∉ (Link_Index <$> vethes) →
  rpcProbes p' !! index = rpcProbes p !! index.
Proof.
  induction vethes as [|veth rest IH]; intros p p'.
  - by intros [= <-].
  - intros (p1 & Hturn & Hrest)%load_vethes_cons_Running Hnot.
    rewrite fmap_cons, not_elem_of_cons in Hnot. destruct Hnot as [Hne Hnot].
    rewrite (IH _ _ Hrest Hnot).
    apply load_veth_Running in Hturn as (-> & _ & _).
    by rewrite lookup_insert_ne.
Qed.

(** X4: the loop over the snapshot loads a probe for every entry, without
    looking at the mapping and without closing anything: an index that
    comes twice is loaded twice and its last entry stays. *)
Theorem snapshot_loads_every_veth vethes : ∀ p p',
  load_vethes vethes p = Running p' →
  loads (trace p') = (loads (trace p) + length vethes)%nat ∧
  closes (trace p') = closes (trace p) ∧
  dom (rpcProbes p') = dom (rpcProbes p) ∪ list_to_set (Link_Index <$> vethes) ∧
  (∀ before veth after,
     vethes = before ++ veth :: after →
     Link_Index veth ∉ (Link_Index <$> after) →
     rpcProbes p' !! Link_Index veth =
       Some (NewEbpf (Link_Index veth) (Neigh_IP veth))).
Proof.
  induction vethes as [|veth rest IH]; intros p p'.
  - intros [= <-]. cbn. split; [lia|]. split; [done|].
    split; [by rewrite (right_id_L ∅ (∪))|].
    intros [|??] ?? ?; done.
  - intros (p1 & Hturn & Hrest)%load_vethes_cons_Running.
    destruct (IH _ _ Hrest) as (Hl & Hc & Hdom & Hlast).
    pose proof Hturn as (Hmap & Hl1 & Hc1)%load_veth_Running.
    split; [cbn [length]; lia|]. split; [lia|]. split.
    + apply load_vethes_dom. cbn [rpc.load_vethes]. by rewrite Hturn.
    + intros [|first before] v after Heq Hnot; simplify_eq/=.
      * rewrite (load_vethes_other _ _ _ _ Hrest Hnot), Hmap.
        apply lookup_insert_eq.
      * by apply (Hlast before v after).
Qed.

(** X5: [Gather] panics exactly when the program image cannot be parsed
    or the veths cannot be listed; no load and no event can make it
    panic. *)
Theorem Gather_Panic_iff spec_err (k : Interface) events err :
  Gather Load spec_err k events = Panic err ↔
  spec_err = Some err ∨ (spec_err = None ∧ GetVethes k = inr err).
Proof.
  unfold Gather. destruct spec_err as [e|].
  - split; [intros [= ->]; by left|]. intros [[= ->]|[? _]]; done.
  - destruct (GetVethes k) as [vethes|e].
    + split; [|intros [?|[_ ?]]; done].
      destruct (load_vethes vethes _) as [p| |e] eqn:Hsnap.
      * intros Hloop. by apply event_loop_no_Panic in Hloop.
      * done.
      * by apply load_vethes_no_Panic in Hsnap.
    + split; [intros [= ->]; by right|]. intros [?|[_ [= ->]]]; done.
Qed.

(** X6: a run stops only on a load that failed, and that load is the last
    thing it did. *)
Theorem Gather_Fatalf_only_on_failed_load spec_err (k : Interface) events p err :
  Gather Load spec_err k events = Fatalf p err →
  ∃ tr proj, trace p = tr ++ [ELoad proj] ∧ Load tr proj = Some err.
Proof.
  unfold Gather. destruct spec_err; [done|].
  destruct (GetVethes k) as [vethes|]; [|done].
  destruct (load_vethes vethes _) as [p1|p1 err1|] eqn:Hsnap.
  - intros Hloop. by apply event_loop_Fatalf in Hloop as [_ Hlast].
  - intros [= <- <-]. by apply load_vethes_Fatalf in Hsnap as [_ Hlast].
  - done.
Qed.

(** X7: in every mapping that [Gather] reaches, a probe sits under the
    index of the interface it was built for. *)
Theorem Gather_keyed spec_err (k : Interface) events p :
  (Gather Load spec_err k events = Running p ∨
   ∃ err, Gather Load spec_err k events = Fatalf p err) →
  keyed (rpcProbes p).
Proof.
  unfold Gather. destruct spec_err; [by intros [?|[? ?]]|].
  destruct (GetVethes k) as [vethes|]; [|by intros [?|[? ?]]].
  assert (keyed (rpcProbes {| rpcProbes := ∅; trace := [] |})) as Hfresh
    by apply map_Forall_empty.
  destruct (load_vethes vethes _) as [p1|p1 err1|] eqn:Hsnap.
  - apply load_vethes_keyed in Hsnap; [|done].
    intros [Hloop|[err Hloop]].
    + by apply (event_loop_keyed events p1 p).
    + apply event_loop_Fatalf in Hloop as [Hk _]. by apply Hk.
  - intros [?|[err [= <- <-]]]; [done|].
    apply load_vethes_Fatalf in Hsnap as [Hk _]. by apply Hk.
  - by intros [?|[? ?]].
Qed.

End Gather.

(** X8: when no load fails and the start-up succeeds, [Gather] gets
    through every list of events. *)
Theorem Gather_runs_when_loads_succeed Load (k : Interface) vethes events :
  (∀ tr proj, Load tr proj = None) →
  GetVethes k = inl vethes →
  ∃ p, Gather Load None k events = Running p.
Proof.
  intros Hok Hsnap.
  assert (∀ vs p, ∃ p', rpc.load_vethes Load vs p = Running p') as Hsnapshot.
  { induction vs as [|v vs IH]; intros p; [by exists p|].
    cbn [rpc.load_vethes]. unfold load_veth. cbv zeta. rewrite Hok. apply IH. }
  assert (∀ es p, ∃ p', rpc.event_loop Load es p = Running p') as Hloop.
  { induction es as [|e es IH]; intros p; [by exists p|].
    cbn [rpc.event_loop]. unfold rpc.handle. cbv zeta.
    destruct (Type_ e); [|destruct (rpcProbes _ !! _); apply IH|apply IH].
    destruct (rpcProbes _ !! _); [apply IH|]. rewrite Hok. apply IH. }
  unfold Gather. rewrite Hsnap.
  destruct (Hsnapshot vethes {| rpcProbes := ∅; trace := [] |}) as [p1 Hp1].
  rewrite Hp1. apply Hloop.
Qed.

Lemma Remove_idempotent_witness :
  ∃ p', rpc.event_loop samples.load_ok (replicate 3 (samples.del 1 "10.0.0.1"))
          samples.one_probe = Running p' ∧
        rpcProbes p' = delete 1 (rpcProbes samples.one_probe) ∧
        closes (trace p') = S (closes (trace samples.one_probe)) ∧
        EClose (NewEbpf 1 "10.0.0.1") ∈ trace p' ∧
        loads (trace p') = loads (trace samples.one_probe).
Proof.
  apply (proj1 (Remove_idempotent samples.load_ok) (samples.del 1 "10.0.0.1")
           samples.one_probe (NewEbpf 1 "10.0.0.1") 2%nat); reflexivity.
Defined.

Lemma registry_correspondence_witness :
  ∃ p, Gather samples.load_ok None samples.two_veths samples.churn = Running p ∧
       dom (rpcProbes p) =
         interfaces_after samples.churn
           (list_to_set (Link_Index <$> [samples.veth 1 "10.0.0.1"; samples.veth 2 "10.0.0.2"])).
Proof.
  eexists. split; [reflexivity|].
  apply (registry_correspondence samples.load_ok None samples.two_veths _ samples.churn);
    reflexivity.
Defined.

Lemma event_loop_no_leak_witness :
  ∃ p', rpc.event_loop samples.load_ok samples.churn samples.fresh = Running p' ∧
        (size (rpcProbes p') + closes (trace p') + loads (trace samples.fresh) =
         size (rpcProbes samples.fresh) + closes (trace samples.fresh) + loads (trace p'))%nat.
Proof.
  eexists. split; [reflexivity|].
  apply (event_loop_no_leak samples.load_ok samples.churn samples.fresh). reflexivity.
Defined.

Lemma snapshot_loads_every_veth_witness :
  ∃ p', rpc.load_vethes samples.load_ok
          [samples.veth 1 "10.0.0.1"; samples.veth 1 "10.0.0.9"] samples.fresh = Running p' ∧
        loads (trace p') = (loads (trace samples.fresh) + 2)%nat ∧
        closes (trace p') = closes (trace samples.fresh) ∧
        rpcProbes p' !! 1 = Some (NewEbpf 1 "10.0.0.9").
Proof.
  eexists. split; [reflexivity|].
  destruct (snapshot_loads_every_veth samples.load_ok
              [samples.veth 1 "10.0.0.1"; samples.veth 1 "10.0.0.9"] samples.fresh _ eq_refl)
    as (Hl & Hc & _ & Hlast).
  split; [exact Hl|]. split; [exact Hc|].
  apply (Hlast [samples.veth 1 "10.0.0.1"] (samples.veth 1 "10.0.0.9") []); [reflexivity|].
  apply not_elem_of_nil.
Defined.

Lemma Gather_Fatalf_only_on_failed_load_witness :
  ∃ p tr proj,
    Gather samples.load_fails_on_2 None samples.directory
      [samples.add 1 "10.0.0.1"; samples.add 2 "10.0.0.2"]
      = Fatalf p "load: permission denied" ∧
    trace p = tr ++ [ELoad proj] ∧
    samples.load_fails_on_2 tr proj = Some "load: permission denied".
Proof.
  eexists.
  destruct (Gather_Fatalf_only_on_failed_load samples.load_fails_on_2 None samples.directory
              [samples.add 1 "10.0.0.1"; samples.add 2 "10.0.0.2"] _ _ eq_refl)
    as (tr & proj & Htrace & Hload).
  exists tr, proj. split; [reflexivity|]. by split.
Defined.

Lemma Gather_keyed_witness :
  ∃ p, Gather samples.load_ok None samples.two_veths samples.churn = Running p ∧
       keyed (rpcProbes p).
Proof.
  eexists. split; [reflexivity|].
  apply (Gather_keyed samples.load_ok None samples.two_veths samples.churn).
  left. reflexivity.
Defined.

Lemma Gather_runs_when_loads_succeed_witness :
  ∃ p, Gather samples.load_ok None samples.two_veths samples.churn = Running p.
Proof.
  apply (Gather_runs_when_loads_succeed samples.load_ok samples.two_veths
           [samples.veth 1 "10.0.0.1"; samples.veth 2 "10.0.0.2"]); reflexivity.
Defined.

End registry_more.

(** * More on the RPC enricher: the header, both tag blocks, the names of
      the tags *)
Module rpc_more.

Import corev1 kprobe metric regexp rpc rpc_spec.

Section enricher.

Context {rpcebpf_RpcType : Type} `{EqDecision rpcebpf_RpcType}.
Variable RPC_TYPE_DUBBO : rpcebpf_RpcType.
Variable string_of_RpcType : rpcebpf_RpcType -> string.
Variable kprobeHelper : Interface.

Abbreviation Metric := (@rpc.Metric rpcebpf_RpcType).
Abbreviation convertRpc2Metric :=
  (rpc.convertRpc2Metric RPC_TYPE_DUBBO string_of_RpcType kprobeHelper).
Abbreviation framing_tags := (rpc.framing_tags RPC_TYPE_DUBBO).
Abbreviation target_head := (rpc.target_head string_of_RpcType).
Abbreviation start now m :=
  (tag "rpc_target" (rpcTarget (parse_path (Path m))) (res0 now m)).

Ltac read_field :=
  repeat (rewrite lookup_insert_ne by discriminate); apply lookup_insert_eq.

(** What is not a tag: the blocks leave it alone, but for the org name
    that the first block sets. *)

Lemma source_block_rest sourcePod res :
  header (source_block sourcePod res) = header res ∧
  OrgName (source_block sourcePod res) = OrgName res.
Proof. done. Qed.

Lemma target_tail_rest (m : Metric) targetPod res :
  header (target_tail m targetPod res) = header res ∧
  OrgName (target_tail m targetPod res) = OrgName res.
Proof. done. Qed.

Lemma framing_tags_rest (m : Metric) v res :
  header (framing_tags m v res) = header res ∧
  OrgName (framing_tags m v res) = OrgName res.
Proof.
  unfold rpc.framing_tags.
  destruct (decide (RpcType m = RPC_TYPE_DUBBO));
    [destruct (String.eqb (Status m) "20") | destruct (String.eqb (Status m) "200")];
    done.
Qed.

Lemma target_head_rest (m : Metric) targetPod res :
  header (target_head m targetPod res) = header res ∧
  OrgName (target_head m targetPod res) = Go.index (Pod_Labels targetPod) "DICE_ORG_NAME".
Proof. done. Qed.

Lemma convertRpc2Metric_rest now (m : Metric) :
  header (convertRpc2Metric now m) = header (res0 now m) ∧
  OrgName (convertRpc2Metric now m) =
    match GetPodByUID kprobeHelper (SrcIP m) with
    | Some targetPod => Go.index (Pod_Labels targetPod) "DICE_ORG_NAME"
    | None => ""
    end.
Proof.
  unfold rpc.convertRpc2Metric, rpc.target_block. cbv zeta.
  set (first := match GetPodByUID kprobeHelper (SrcIP m) with
                | Some targetPod => _ | None => _ end).
  assert (header first = header (res0 now m) ∧
          OrgName first = match GetPodByUID kprobeHelper (SrcIP m) with
                          | Some targetPod => Go.index (Pod_Labels targetPod) "DICE_ORG_NAME"
                          | None => ""
                          end) as [Hh Ho].
  { unfold first. destruct (GetPodByUID kprobeHelper (SrcIP m)) as [targetPod|]; [|done].
    destruct (target_tail_rest m targetPod
                (framing_tags m (parse_path (Path m))
                   (target_head m targetPod (start now m)))) as [-> ->].
    destruct (framing_tags_rest m (parse_path (Path m))
                (target_head m targetPod (start now m))) as [-> ->].
    by destruct (target_head_rest m targetPod (start now m)) as [-> ->]. }
  destruct (GetPodByUID kprobeHelper (DstIP m)) as [sourcePod|]; [|done].
  by destruct (source_block_rest sourcePod first) as [-> ->].
Qed.

(** X9: every RPC metric is named [application_rpc], is stamped with the
    clock reading of its conversion, and has exactly five fields:
    [elapsed_count] is 1 and the sum, max, min and mean are the duration
    of the event. *)
Theorem convertRpc2Metric_header now (m : Metric) :
  let res := convertRpc2Metric now m in
  Name res = "application_rpc" ∧
  Measurement res = "application_rpc" ∧
  Timestamp res = now ∧
  Fields res !! "elapsed_count" = Some 1 ∧
  Fields res !! "elapsed_sum" = Some (Duration m) ∧
  Fields res !! "elapsed_max" = Some (Duration m) ∧
  Fields res !! "elapsed_min" = Some (Duration m) ∧
  Fields res !! "elapsed_mean" = Some (Duration m) ∧
  dom (Fields res) =
    ({[ "elapsed_count"; "elapsed_sum"; "elapsed_max"; "elapsed_min"; "elapsed_mean" ]}
       : gset string).
Proof.
  cbv zeta.
  destruct (convertRpc2Metric_rest now m) as [[= -> -> -> ->] _].
  unfold res0. cbn [Fields tag set_Tags].
  split; [done|]. split; [done|]. split; [done|].
  split; [read_field|].
  split; [read_field|].
  split; [read_field|].
  split; [read_field|].
  split; [read_field|].
  rewrite !dom_insert_L, dom_empty_L. set_solver.
Qed.

(** X10: the tags of the first lookup.  When the pod at the event's
    source address is known, the org name and the identity tags come from
    that pod, [db_host] is the source address and port, [peer_address]
    the destination address and port, and [method] and [peer_service]
    are the raw path; without that pod the org name is empty. *)
Theorem convertRpc2Metric_target_side now (m : Metric) :
  let res := convertRpc2Metric now m in
  (∀ targetPod, GetPodByUID kprobeHelper (SrcIP m) = Some targetPod →
     let label := Go.index (Pod_Labels targetPod) in
     let annotation := Go.index (Pod_Annotations targetPod) in
     OrgName res = label "DICE_ORG_NAME" ∧
     Tags res !! "org_name" = Some (label "DICE_ORG_NAME") ∧
     Tags res !! "cluster_name" = Some (label "DICE_CLUSTER_NAME") ∧
     Tags res !! "component" = Some (string_of_RpcType (RpcType m)) ∧
     Tags res !! "db_host" = Some (SrcIP m +:+ ":" +:+ Go.fmt_d (SrcPort m)) ∧
     Tags res !! "peer_address" = Some (DstIP m +:+ ":" +:+ Go.fmt_d (DstPort m)) ∧
     Tags res !! "method" = Some (Path m) ∧
     Tags res !! "peer_service" = Some (Path m) ∧
     Tags res !! "host_ip" = Some (Pod_HostIP targetPod) ∧
     Tags res !! "_metric_scope_id" = Some (annotation "msp.erda.cloud/terminus_key") ∧
     Tags res !! "target_terminus_key" = Some (annotation "msp.erda.cloud/terminus_key") ∧
     Tags res !! "target_application_id" = Some (label "DICE_APPLICATION_ID") ∧
     Tags res !! "target_application_name" = Some (label "DICE_APPLICATION_NAME") ∧
     Tags res !! "target_org_id" = Some (label "DICE_ORG_ID") ∧
     Tags res !! "target_project_id" = Some (label "DICE_PROJECT_ID") ∧
     Tags res !! "target_project_name" = Some (label "DICE_PROJECT_NAME") ∧
     Tags res !! "target_runtime_id" = Some (label "DICE_RUNTIME_ID") ∧
     Tags res !! "target_runtime_name" = Some (annotation "msp.erda.cloud/runtime_name") ∧
     Tags res !! "target_service_id" =
       Some (label "DICE_APPLICATION_ID" +:+ "_" +:+
             annotation "msp.erda.cloud/runtime_name" +:+ "_" +:+
             label "DICE_SERVICE_NAME") ∧
     Tags res !! "target_service_instance_id" = Some (Pod_UID targetPod) ∧
     Tags res !! "target_service_name" = Some (annotation "msp.erda.cloud/service_name") ∧
     Tags res !! "target_workspace" = Some (annotation "msp.erda.cloud/workspace")) ∧
  (GetPodByUID kprobeHelper (SrcIP m) = None → OrgName res = "").
Proof.
  cbv zeta. split.
  - intros targetPod Hpod.
    split; [destruct (convertRpc2Metric_rest now m) as [_ ->]; by rewrite Hpod|].
    repeat split;
      rewrite convertRpc2Metric_tag by reflexivity; rewrite Hpod;
      first [ rewrite target_tail_other, framing_tags_other by reflexivity;
              unfold rpc.target_head
            | unfold target_tail ];
      read_tags.
  - intros Hpod. destruct (convertRpc2Metric_rest now m) as [_ ->]. by rewrite Hpod.
Qed.

(** A key that begins with "source_" is none of the keys of a list of
    other keys. *)
Lemma source_key_other (key : string) (others : list string) :
  String.prefix "source_" key = true →
  forallb (λ k, negb (String.prefix "source_" k)) others = true →
  forallb (λ k, negb (String.eqb key k)) others = true.
Proof.
  intros Hkey. induction others as [|k others IH]; [done|].
  cbn [forallb]. intros [Hk Hrest]%andb_true_iff.
  rewrite (IH Hrest), andb_true_r.
  destruct (String.eqb_spec key k) as [->|]; [|done].
  by rewrite Hkey in Hk.
Qed.

Lemma source_key_not_target (key : string) :
  String.prefix "source_" key = true → String.prefix "target_" key = false.
Proof.
  destruct key as [|c key]; [done|]. cbn [String.prefix].
  destruct (ascii_dec "s" c) as [<-|]; [|done]. done.
Qed.

(** X11: the tags of the second lookup.  When the pod at the event's
    destination address is known, the nine source_* tags come from that
    pod; when it is not, the metric has no tag whose name begins with
    "source_". *)
Theorem convertRpc2Metric_source_side now (m : Metric) :
  let res := convertRpc2Metric now m in
  (∀ sourcePod, GetPodByUID kprobeHelper (DstIP m) = Some sourcePod →
     let label := Go.index (Pod_Labels sourcePod) in
     let annotation := Go.index (Pod_Annotations sourcePod) in
     Tags res !! "source_application_id" = Some (label "DICE_APPLICATION_ID") ∧
     Tags res !! "source_application_name" = Some (label "DICE_APPLICATION_NAME") ∧
     Tags res !! "source_org_id" = Some (label "DICE_ORG_ID") ∧
     Tags res !! "source_project_id" = Some (label "DICE_PROJECT_ID") ∧
     Tags res !! "source_project_name" = Some (label "DICE_PROJECT_NAME") ∧
     Tags res !! "source_runtime_id" = Some (label "DICE_RUNTIME_ID") ∧
     Tags res !! "source_runtime_name" = Some (annotation "msp.erda.cloud/runtime_name") ∧
     Tags res !! "source_service_id" =
       Some (label "DICE_APPLICATION_ID" +:+ "_" +:+
             annotation "msp.erda.cloud/runtime_name" +:+ "_" +:+
             label "DICE_SERVICE_NAME") ∧
     Tags res !! "source_workspace" = Some (annotation "msp.erda.cloud/workspace")) ∧
  (GetPodByUID kprobeHelper (DstIP m) = None →
   ∀ key, String.prefix "source_" key = true → Tags res !! key = None).
Proof.
  cbv zeta. unfold rpc.convertRpc2Metric, rpc.target_block. cbv zeta. split.
  - intros sourcePod ->. unfold source_block. repeat split; read_tags.
  - intros -> key Hkey.
    pose proof (source_key_not_target key Hkey) as Hnot.
    destruct (GetPodByUID kprobeHelper (SrcIP m)) as [targetPod|].
    + rewrite target_tail_other, framing_tags_other, target_head_other;
        [by apply start_other, source_key_other|by apply source_key_other..|done|
         by apply source_key_other].
    + by apply start_other, source_key_other.
Qed.

(** The names each block writes. *)
Ltac dom_of_assignments :=
  cbn [Tags tag set_Tags set_OrgName];
  rewrite !dom_insert_L, ?dom_empty_L;
  rewrite ?(right_id_L ∅ (∪));
  rewrite !(assoc_L (∪));
  first [ reflexivity | f_equal ].

Lemma start_dom now (m : Metric) : dom (Tags (start now m)) = tagnames.rpc_common.
Proof. unfold res0. dom_of_assignments. Qed.

Lemma first_block_dom (m : Metric) targetPod res :
  dom (Tags (target_tail m targetPod
               (framing_tags m (parse_path (Path m)) (target_head m targetPod res)))) =
    tagnames.rpc_target ∪
    (if decide (RpcType m = RPC_TYPE_DUBBO) then tagnames.rpc_dubbo else ∅) ∪
    dom (Tags res).
Proof.
  unfold target_tail, rpc.framing_tags, rpc.target_head.
  destruct (decide (RpcType m = RPC_TYPE_DUBBO));
    [destruct (String.eqb (Status m) "20") | destruct (String.eqb (Status m) "200")];
    dom_of_assignments.
Qed.

Lemma source_block_dom sourcePod res :
  dom (Tags (source_block sourcePod res)) = tagnames.rpc_source ∪ dom (Tags res).
Proof. unfold source_block. dom_of_assignments. Qed.

(** X12: the names of the tags of an RPC metric.  There are the four
    common ones; with a pod at the source address the twenty-five of the
    first block, and four more under the Dubbo framing; with a pod at the
    destination address the nine source_* ones; and no other. *)
Theorem convertRpc2Metric_tag_names now (m : Metric) :
  dom (Tags (convertRpc2Metric now m)) =
    tagnames.rpc_common ∪
    match GetPodByUID kprobeHelper (SrcIP m) with
    | Some _ =>
        tagnames.rpc_target ∪
        (if decide (RpcType m = RPC_TYPE_DUBBO) then tagnames.rpc_dubbo else ∅)
    | None => ∅
    end ∪
    match GetPodByUID kprobeHelper (DstIP m) with
    | Some _ => tagnames.rpc_source
    | None => ∅
    end.
Proof.
  unfold rpc.convertRpc2Metric, rpc.target_block. cbv zeta.
  destruct (GetPodByUID kprobeHelper (DstIP m)) as [sourcePod|];
    [rewrite source_block_dom|];
    (destruct (GetPodByUID kprobeHelper (SrcIP m)) as [targetPod|];
     [rewrite first_block_dom|]);
    rewrite start_dom;
    generalize tagnames.rpc_common, tagnames.rpc_target, tagnames.rpc_source,
      (if decide (RpcType m = RPC_TYPE_DUBBO) then tagnames.rpc_dubbo else ∅);
    intros common target source dubbo; set_solver.
Qed.

End enricher.

Lemma convertRpc2Metric_target_side_witness :
  let res := rpc.convertRpc2Metric samples.dubbo (λ kind : string, kind) samples.directory 0
               samples.dubbo_call in
  OrgName res = "acme" ∧
  Tags res !! "db_host" = Some "10.0.0.2:20880" ∧
  Tags res !! "peer_address" = Some "10.0.0.1:51000" ∧
  Tags res !! "target_service_id" = Some "7_master_stock".
Proof.
  pose proof (proj1 (convertRpc2Metric_target_side samples.dubbo (λ kind : string, kind)
                       samples.directory 0 samples.dubbo_call) samples.server eq_refl) as Hside.
  cbv zeta in Hside.
  destruct Hside as (H1 & _ & _ & _ & H5 & H6 & _ & _ & _ & _ & _ & _ & _ & _ & _ & _ & _ & _ & H19 & _).
  cbv zeta. split; [exact H1|]. split; [exact H5|]. split; [exact H6|]. exact H19.
Defined.

Lemma convertRpc2Metric_source_side_witness :
  let res := rpc.convertRpc2Metric samples.dubbo (λ kind : string, kind) samples.directory 0
               samples.dubbo_call in
  Tags res !! "source_application_name" = Some "cart" ∧
  Tags res !! "source_service_id" = Some "7_master_cart".
Proof.
  pose proof (proj1 (convertRpc2Metric_source_side samples.dubbo (λ kind : string, kind)
                       samples.directory 0 samples.dubbo_call) samples.client eq_refl) as Hside.
  cbv zeta in Hside.
  destruct Hside as (_ & H2 & _ & _ & _ & _ & _ & H8 & _).
  cbv zeta. split; [exact H2|exact H8].
Defined.

End rpc_more.

(** * More on the path pattern: when it matches and which groups it
      returns *)
Module regexp_more.

Import regexp rpc regexp_spec.

Lemma all_in_app cls (s t : string) :
  all_in cls (s +:+ t) = all_in cls s && all_in cls t.
Proof.
  induction s as [|c s IH]; [done|].
  rewrite app_cons. cbn [all_in]. by rewrite IH, andb_assoc.
Qed.

Lemma all_in_impl (cls cls' : ascii → bool) (s : string) :
  (∀ c, cls c = true → cls' c = true) → all_in cls s = true → all_in cls' s = true.
Proof.
  intros Himpl. induction s as [|c s IH]; [done|]. cbn [all_in].
  intros [Hc Hs]%andb_true_iff. by rewrite (Himpl c Hc), IH.
Qed.

(** No class of the pattern holds "!", and a character of the last class
    is not one of the class before it. *)
Lemma service_not_bang c : service_char c = true → not_bang c = true.
Proof.
  unfold not_bang. destruct (Ascii.eqb_spec c "!") as [->|]; [|done].
  by vm_compute.
Qed.

Lemma version_not_bang c : version_char c = true → not_bang c = true.
Proof.
  unfold not_bang. destruct (Ascii.eqb_spec c "!") as [->|]; [|done].
  by vm_compute.
Qed.

Lemma method_not_bang c : method_char c = true → not_bang c = true.
Proof.
  unfold not_bang. destruct (Ascii.eqb_spec c "!") as [->|]; [|done].
  by vm_compute.
Qed.

Lemma method_not_version c : method_char c = true → version_char c = false.
Proof. destruct c as [[] [] [] [] [] [] [] []]; by vm_compute. Qed.

Section backtrack.

Context {A : Type}.

(** A greedy repetition that can go no further and whose rest is
    accepted stops there. *)
Lemma star_greedy cls (k : string → option A) rest a : ∀ w,
  all_in cls w = true → not_at cls rest = true → k rest = Some a →
  star cls (w +:+ rest) k = Some a.
Proof.
  intros w Hall Hstop Hk. induction w as [|c w IH].
  - change ("" +:+ rest) with rest. destruct rest as [|d rest]; [done|].
    cbn [star not_at] in *. by destruct (cls d).
  - cbn [all_in] in Hall. apply andb_true_iff in Hall as [Hc Hall].
    rewrite app_cons. cbn [star]. by rewrite Hc, (IH Hall).
Qed.

(** One parenthesis around [x+], read greedily. *)
Lemma group_greedy i cls w rest caps (k : string → gmap nat string → option A) a :
  w ≠ "" → all_in cls w = true → not_at cls rest = true →
  k rest (<[i := w]> caps) = Some a →
  backtrack (Capture i (Plus cls)) (w +:+ rest) caps k = Some a.
Proof.
  intros Hne Hall Hstop Hk. destruct w as [|c w]; [done|].
  cbn [all_in] in Hall. apply andb_true_iff in Hall as [Hc Hall].
  cbn [backtrack]. rewrite app_cons, Hc.
  apply star_greedy; [done..|].
  by rewrite <- app_cons, consumed_app.
Qed.

(** Where no "!" is left, nothing that begins with "!" matches, however
    far a repetition in front of it goes. *)
Lemma star_no_bang cls r (caps : string → gmap nat string)
    (k : string → gmap nat string → option A) : ∀ s,
  all_in not_bang s = true →
  star cls s (λ s1, backtrack (Concat (Lit "!") r) s1 (caps s1) k) = None.
Proof.
  induction s as [|c s IH]; [done|]. cbn [all_in].
  intros [Hc Hs]%andb_true_iff. cbn [star]. rewrite (IH Hs).
  assert (backtrack (Concat (Lit "!") r) (String c s) (caps (String c s)) k = None) as ->.
  { cbn [backtrack]. unfold not_bang in Hc.
    rewrite Ascii.eqb_sym. by destruct (Ascii.eqb c "!"). }
  by destruct (cls c).
Qed.

(** The greedy [.*] in front of the last "!". *)
Lemma star_to_last_bang r (caps : string → gmap nat string)
    (k : string → gmap nat string → option A) rest a : ∀ w,
  all_in dot w = true → all_in not_bang rest = true →
  backtrack r rest (caps ("!" +:+ rest)) k = Some a →
  star dot (w +:+ "!" +:+ rest)
    (λ s1, backtrack (Concat (Lit "!") r) s1 (caps s1) k) = Some a.
Proof.
  intros w Hall Hrest Hk. induction w as [|c w IH].
  - change ("" +:+ "!" +:+ rest) with (String "!" rest). cbn [star].
    change (dot "!") with true. cbn iota.
    rewrite (star_no_bang dot r caps k rest Hrest).
    cbn [backtrack]. by rewrite Ascii.eqb_refl.
  - cbn [all_in] in Hall. apply andb_true_iff in Hall as [Hc Hall].
    rewrite app_cons. cbn [star]. by rewrite Hc, (IH Hall).
Qed.

End backtrack.

Lemma backtrack_concat {A} r1 r2 s caps (k : string → gmap nat string → option A) :
  backtrack (Concat r1 r2) s caps k =
    backtrack r1 s caps (λ s' caps', backtrack r2 s' caps' k).
Proof. reflexivity. Qed.

Lemma search_here re s s' caps :
  backtrack re s ∅ (λ s1 caps1, Some (s1, caps1)) = Some (s', caps) →
  search re s = Some (consumed s s', caps).
Proof. intros Hrun. destruct s; cbn [search]; by rewrite Hrun. Qed.

(** X13: the groups of a well-formed path.  When the path is a version, a
    "!", a service name, a service version that begins with a digit and a
    method, and what follows holds no "!" and does not go on with a
    character of the method, [FindStringSubmatch] returns exactly these
    four groups. *)
Theorem FindStringSubmatch_round_trip g1 g2 g3 g4 post :
  all_in dot g1 = true →
  g2 ≠ "" → all_in service_char g2 = true →
  g3 ≠ "" → all_in version_char g3 = true → not_at service_char g3 = true →
  g4 ≠ "" → all_in method_char g4 = true →
  not_at method_char post = true → all_in not_bang post = true →
  FindStringSubmatch pathRegexp (g1 +:+ "!" +:+ g2 +:+ g3 +:+ g4 +:+ post) =
    [g1 +:+ "!" +:+ g2 +:+ g3 +:+ g4; g1; g2; g3; g4].
Proof.
  intros H1 Hn2 H2 Hn3 H3 Hs3 Hn4 H4 Hspost Hpost.
  set (caps := <[4%nat := g4]> (<[3%nat := g3]> (<[2%nat := g2]>
                 (<[1%nat := g1]> (∅ : gmap nat string))))).
  assert (search pathRegexp (g1 +:+ "!" +:+ g2 +:+ g3 +:+ g4 +:+ post) =
            Some (g1 +:+ "!" +:+ g2 +:+ g3 +:+ g4, caps)) as Hsearch.
  { assert (g1 +:+ "!" +:+ g2 +:+ g3 +:+ g4 =
            consumed (g1 +:+ "!" +:+ g2 +:+ g3 +:+ g4 +:+ post) post) as ->.
    { rewrite <- (consumed_app (g1 +:+ "!" +:+ g2 +:+ g3 +:+ g4) post) at 1.
      by rewrite !app_assoc. }
    apply search_here. unfold pathRegexp.
    set (path := g1 +:+ "!" +:+ g2 +:+ g3 +:+ g4 +:+ post).
    change (star dot path
              (λ s1, backtrack
                       (Concat (Lit "!")
                          (Concat (Capture 2 (Plus service_char))
                             (Concat (Capture 3 (Plus version_char))
                                (Capture 4 (Plus method_char)))))
                       s1 (<[1%nat := consumed path s1]> ∅)
                       (λ s2 caps2, Some (s2, caps2)))
            = Some (post, caps)).
    apply (star_to_last_bang _ (λ s1, <[1%nat := consumed path s1]> ∅)).
    - done.
    - rewrite !all_in_app.
      rewrite (all_in_impl _ _ g2 service_not_bang H2),
        (all_in_impl _ _ g3 version_not_bang H3),
        (all_in_impl _ _ g4 method_not_bang H4), Hpost. done.
    - unfold path. rewrite consumed_app, backtrack_concat.
      apply group_greedy; [done..|by destruct g3|].
      rewrite backtrack_concat.
      apply group_greedy; [done..| |].
      { destruct g4 as [|c g4]; [done|]. cbn [all_in] in H4.
        apply andb_true_iff in H4 as [Hc _]. rewrite app_cons. cbn [not_at].
        by rewrite (method_not_version c Hc). }
      by apply group_greedy. }
  unfold FindStringSubmatch. by rewrite Hsearch.
Qed.

Lemma FindStringSubmatch_round_trip_witness :
  FindStringSubmatch pathRegexp
    ("2.0.0" +:+ "!" +:+ "com.acme.Svc" +:+ "1.0.0" +:+ "/hello" +:+ " HTTP") =
    ["2.0.0" +:+ "!" +:+ "com.acme.Svc" +:+ "1.0.0" +:+ "/hello";
     "2.0.0"; "com.acme.Svc"; "1.0.0"; "/hello"].
Proof.
  apply FindStringSubmatch_round_trip; (reflexivity || discriminate).
Defined.

(** A path in which the pattern matches holds a word of its language. *)
Lemma submatch_factor path :
  FindStringSubmatch pathRegexp path ≠ [] →
  ∃ pre g1 g2 g3 g4 post,
    path = pre +:+ (g1 +:+ "!" +:+ g2 +:+ g3 +:+ g4) +:+ post ∧
    all_in dot g1 = true ∧
    (g2 ≠ "" ∧ all_in service_char g2 = true) ∧
    (g3 ≠ "" ∧ all_in version_char g3 = true) ∧
    (g4 ≠ "" ∧ all_in method_char g4 = true).
Proof.
  unfold FindStringSubmatch.
  destruct (search pathRegexp path) as [[w caps]|] eqn:Hsearch; [|done].
  intros _. apply search_sound in Hsearch as (pre & post & -> & Hm).
  apply rpc_spec.pathRegexp_matches in Hm
    as (g1 & g2 & g3 & g4 & -> & H1 & H2 & H3 & H4 & _).
  by exists pre, g1, g2, g3, g4, post.
Qed.

(** X14: the pattern matches a path exactly when some part of the path is
    a run of characters without a line feed, a "!", one or more letters
    or dots, one or more digits or dots, and one or more letters, slashes
    or semicolons. *)
Theorem pathRegexp_matches_iff path :
  FindStringSubmatch pathRegexp path ≠ [] ↔
  ∃ pre g1 g2 g3 g4 post,
    path = pre +:+ (g1 +:+ "!" +:+ g2 +:+ g3 +:+ g4) +:+ post ∧
    all_in dot g1 = true ∧
    (g2 ≠ "" ∧ all_in service_char g2 = true) ∧
    (g3 ≠ "" ∧ all_in version_char g3 = true) ∧
    (g4 ≠ "" ∧ all_in method_char g4 = true).
Proof.
  split; [apply submatch_factor|].
  intros (pre & g1 & g2 & g3 & g4 & post & -> & H1 & H2 & H3 & H4).
  by apply rpc_spec.FindStringSubmatch_pathRegexp_complete.
Qed.

Section enricher.

Context {rpcebpf_RpcType : Type} `{EqDecision rpcebpf_RpcType}.
Variable RPC_TYPE_DUBBO : rpcebpf_RpcType.
Variable string_of_RpcType : rpcebpf_RpcType -> string.
Variable kprobeHelper : kprobe.Interface.

(** X15: a path without "!" is passed on as it is: the pattern does not
    match it and [rpc_target] is the path. *)
Theorem path_without_bang now (m : @rpc.Metric rpcebpf_RpcType) :
  all_in not_bang (Path m) = true →
  FindStringSubmatch pathRegexp (Path m) = [] ∧
  metric.Tags (rpc.convertRpc2Metric RPC_TYPE_DUBBO string_of_RpcType kprobeHelper now m)
    !! "rpc_target" = Some (Path m).
Proof.
  intros Hpath.
  assert (FindStringSubmatch pathRegexp (Path m) = []) as Hnone.
  { destruct (FindStringSubmatch pathRegexp (Path m)) as [|g0 rest] eqn:Hfind; [done|].
    destruct (submatch_factor (Path m)) as (pre & g1 & g2 & g3 & g4 & post & Heq & _);
      [by rewrite Hfind|].
    rewrite Heq, !all_in_app in Hpath.
    change (all_in not_bang "!") with false in Hpath.
    by rewrite !andb_false_r, ?andb_false_l in Hpath. }
  split; [done|].
  by rewrite rpc_spec.rpc_target_tag, (rpc_spec.parse_path_no_match _ Hnone).
Qed.

End enricher.

Lemma path_without_bang_witness :
  FindStringSubmatch pathRegexp "weird" = [] ∧
  metric.Tags (rpc.convertRpc2Metric samples.dubbo (λ kind : string, kind) samples.directory 0
                 (samples.rpc_event "weird" "200" "http"))
    !! "rpc_target" = Some "weird".
Proof.
  apply (path_without_bang samples.dubbo (λ kind : string, kind) samples.directory 0
           (samples.rpc_event "weird" "200" "http")).
  reflexivity.
Defined.

End regexp_more.

(** * More on the HTTP enricher: the Pod arm, the request tags, the names
      of the tags *)
Module meta_more.

Import corev1 kprobe metric meta.

(** The Pod arm is its three runs of assignments, one after the other. *)
Lemma pod_arm_parts m sourcePod t output :
  pod_arm m sourcePod t output =
    pod_source_tags sourcePod (pod_target_tags t (pod_peer_tags m t output)).
Proof. reflexivity. Qed.

Ltac read_tags := rpc_spec.read_tags.

Lemma pod_source_tags_other sourcePod output (key : string) :
  String.prefix "source_" key = false →
  Tags (pod_source_tags sourcePod output) !! key = Tags output !! key.
Proof.
  intros Hkey. unfold pod_source_tags. cbn [Tags tag set_Tags].
  repeat (rewrite lookup_insert_ne; [|by intros <-]).
  done.
Qed.

Lemma pod_target_tags_other t output (key : string) :
  String.prefix "target_" key = false →
  Tags (pod_target_tags t output) !! key = Tags output !! key.
Proof.
  intros Hkey. unfold pod_target_tags. cbn [Tags tag set_Tags].
  repeat (rewrite lookup_insert_ne; [|by intros <-]).
  done.
Qed.

Lemma pod_peer_tags_other m t output (key : string) :
  forallb (λ k, negb (String.eqb key k))
    ["cluster_name"; "db_host"; "org_name"; "peer_address"; "peer_hostname"] = true →
  Tags (pod_peer_tags m t output) !! key = Tags output !! key.
Proof.
  intros Hkey. unfold pod_peer_tags. cbn [Tags tag set_Tags set_OrgName].
  repeat (rewrite lookup_insert_ne; [|by intros <-]).
  done.
Qed.

(** What each run writes. *)
Lemma pod_source_tags_read sourcePod output :
  let tags := Tags (pod_source_tags sourcePod output) in
  let label := Go.index (Pod_Labels sourcePod) in
  let annotation := Go.index (Pod_Annotations sourcePod) in
  tags !! "source_application_id" = Some (label "DICE_APPLICATION_ID") ∧
  tags !! "source_application_name" = Some (label "DICE_APPLICATION_NAME") ∧
  tags !! "source_org_id" = Some (label "DICE_ORG_ID") ∧
  tags !! "source_project_id" = Some (label "DICE_PROJECT_ID") ∧
  tags !! "source_project_name" = Some (label "DICE_PROJECT_NAME") ∧
  tags !! "source_runtime_id" = Some (label "DICE_RUNTIME_ID") ∧
  tags !! "source_runtime_name" = Some (annotation "msp.erda.cloud/runtime_name") ∧
  tags !! "source_service_id" =
    Some (label "DICE_APPLICATION_ID" +:+ "_" +:+
          annotation "msp.erda.cloud/runtime_name" +:+ "_" +:+
          label "DICE_SERVICE_NAME") ∧
  tags !! "source_service_instance_id" = Some (Pod_UID sourcePod) ∧
  tags !! "source_service_name" = Some (annotation "msp.erda.cloud/service_name") ∧
  tags !! "source_terminus_key" = Some (annotation "msp.erda.cloud/terminus_key") ∧
  tags !! "source_workspace" = Some (annotation "msp.erda.cloud/workspace").
Proof. cbv zeta. unfold pod_source_tags. repeat split; read_tags. Qed.

Lemma pod_target_tags_read t output :
  let tags := Tags (pod_target_tags t output) in
  let label := Go.index (Pod_Labels t) in
  let annotation := Go.index (Pod_Annotations t) in
  tags !! "target_application_id" = Some (label "DICE_APPLICATION_ID") ∧
  tags !! "target_application_name" = Some (label "DICE_APPLICATION_NAME") ∧
  tags !! "target_org_id" = Some (label "DICE_ORG_ID") ∧
  tags !! "target_project_id" = Some (label "DICE_PROJECT_ID") ∧
  tags !! "target_project_name" = Some (label "DICE_PROJECT_NAME") ∧
  tags !! "target_runtime_id" = Some (label "DICE_RUNTIME_ID") ∧
  tags !! "target_runtime_name" = Some (annotation "msp.erda.cloud/runtime_name") ∧
  tags !! "target_service_id" =
    Some (label "DICE_APPLICATION_ID" +:+ "_" +:+
          annotation "msp.erda.cloud/runtime_name" +:+ "_" +:+
          label "DICE_SERVICE_NAME") ∧
  tags !! "target_service_instance_id" = Some (Pod_UID t) ∧
  tags !! "target_service_name" = Some (annotation "msp.erda.cloud/service_name") ∧
  tags !! "target_terminus_key" = Some (annotation "msp.erda.cloud/terminus_key") ∧
  tags !! "target_workspace" = Some (annotation "msp.erda.cloud/workspace").
Proof. cbv zeta. unfold pod_target_tags. repeat split; read_tags. Qed.

Lemma pod_peer_tags_read m t output :
  let out := pod_peer_tags m t output in
  OrgName out = Go.index (Pod_Labels t) "DICE_ORG_NAME" ∧
  Tags out !! "org_name" = Some (Go.index (Pod_Labels t) "DICE_ORG_NAME") ∧
  Tags out !! "cluster_name" = Some (Go.index (Pod_Labels t) "DICE_CLUSTER_NAME") ∧
  Tags out !! "db_host" = Some (DestIP m +:+ ":" +:+ Go.fmt_d (DestPort m)) ∧
  Tags out !! "peer_address" = Some (DestIP m +:+ ":" +:+ Go.fmt_d (DestPort m)) ∧
  Tags out !! "peer_hostname" = Some "".
Proof. cbv zeta. unfold pod_peer_tags. repeat split; read_tags. Qed.

(** The runs of target_* and source_* tags write tags only. *)
Lemma pod_source_tags_rest sourcePod output :
  OrgName (pod_source_tags sourcePod output) = OrgName output ∧
  header (pod_source_tags sourcePod output) = header output.
Proof. done. Qed.

Lemma pod_target_tags_rest t output :
  OrgName (pod_target_tags t output) = OrgName output ∧
  header (pod_target_tags t output) = header output.
Proof. done. Qed.

Lemma pod_peer_tags_rest m t output :
  header (pod_peer_tags m t output) = header output.
Proof. done. Qed.

Lemma pod_arm_OrgName m sourcePod t output :
  OrgName (pod_source_tags sourcePod (pod_target_tags t (pod_peer_tags m t output))) =
    Go.index (Pod_Labels t) "DICE_ORG_NAME".
Proof.
  rewrite (proj1 (pod_source_tags_rest _ _)), (proj1 (pod_target_tags_rest _ _)).
  apply pod_peer_tags_read.
Qed.

(** [Convert] with a pod at both ends. *)
Lemma Convert_pod (k : Interface) now m sourcePod t :
  GetPodByUID k (SourceIP m) = Some sourcePod →
  GetPodByUID k (DestIP m) = Some t →
  Convert k now m =
    Some (pod_source_tags sourcePod (pod_target_tags t (pod_peer_tags m t (classified now m)))).
Proof.
  intros Hs Ht. unfold Convert, resolve_target. by rewrite Hs, Ht.
Qed.

(** X17: pod to pod.  When both addresses are pods, the metric takes its
    org name, [org_name] and [cluster_name] from the destination pod,
    [db_host] and [peer_address] are the destination address and port,
    [peer_hostname] is empty, the twelve target_* tags come from the
    destination pod and the twelve source_* tags from the source pod. *)
Theorem Convert_pod_target (k : Interface) now m sourcePod t :
  GetPodByUID k (SourceIP m) = Some sourcePod →
  GetPodByUID k (DestIP m) = Some t →
  ∃ out, Convert k now m = Some out ∧
    let tags := Tags out in
    let target := Go.index (Pod_Labels t) in
    let target_note := Go.index (Pod_Annotations t) in
    let source := Go.index (Pod_Labels sourcePod) in
    let source_note := Go.index (Pod_Annotations sourcePod) in
    OrgName out = target "DICE_ORG_NAME" ∧
    tags !! "org_name" = Some (target "DICE_ORG_NAME") ∧
    tags !! "cluster_name" = Some (target "DICE_CLUSTER_NAME") ∧
    tags !! "db_host" = Some (DestIP m +:+ ":" +:+ Go.fmt_d (DestPort m)) ∧
    tags !! "peer_address" = Some (DestIP m +:+ ":" +:+ Go.fmt_d (DestPort m)) ∧
    tags !! "peer_hostname" = Some "" ∧
    (tags !! "target_application_id" = Some (target "DICE_APPLICATION_ID") ∧
     tags !! "target_application_name" = Some (target "DICE_APPLICATION_NAME") ∧
     tags !! "target_org_id" = Some (target "DICE_ORG_ID") ∧
     tags !! "target_project_id" = Some (target "DICE_PROJECT_ID") ∧
     tags !! "target_project_name" = Some (target "DICE_PROJECT_NAME") ∧
     tags !! "target_runtime_id" = Some (target "DICE_RUNTIME_ID") ∧
     tags !! "target_runtime_name" = Some (target_note "msp.erda.cloud/runtime_name") ∧
     tags !! "target_service_id" =
       Some (target "DICE_APPLICATION_ID" +:+ "_" +:+
             target_note "msp.erda.cloud/runtime_name" +:+ "_" +:+
             target "DICE_SERVICE_NAME") ∧
     tags !! "target_service_instance_id" = Some (Pod_UID t) ∧
     tags !! "target_service_name" = Some (target_note "msp.erda.cloud/service_name") ∧
     tags !! "target_terminus_key" = Some (target_note "msp.erda.cloud/terminus_key") ∧
     tags !! "target_workspace" = Some (target_note "msp.erda.cloud/workspace")) ∧
    (tags !! "source_application_id" = Some (source "DICE_APPLICATION_ID") ∧
     tags !! "source_application_name" = Some (source "DICE_APPLICATION_NAME") ∧
     tags !! "source_org_id" = Some (source "DICE_ORG_ID") ∧
     tags !! "source_project_id" = Some (source "DICE_PROJECT_ID") ∧
     tags !! "source_project_name" = Some (source "DICE_PROJECT_NAME") ∧
     tags !! "source_runtime_id" = Some (source "DICE_RUNTIME_ID") ∧
     tags !! "source_runtime_name" = Some (source_note "msp.erda.cloud/runtime_name") ∧
     tags !! "source_service_id" =
       Some (source "DICE_APPLICATION_ID" +:+ "_" +:+
             source_note "msp.erda.cloud/runtime_name" +:+ "_" +:+
             source "DICE_SERVICE_NAME") ∧
     tags !! "source_service_instance_id" = Some (Pod_UID sourcePod) ∧
     tags !! "source_service_name" = Some (source_note "msp.erda.cloud/service_name") ∧
     tags !! "source_terminus_key" = Some (source_note "msp.erda.cloud/terminus_key") ∧
     tags !! "source_workspace" = Some (source_note "msp.erda.cloud/workspace")).
Proof.
  intros Hs Ht. eexists. split; [by apply Convert_pod|]. cbv zeta.
  destruct (pod_peer_tags_read m t (classified now m)) as (_ & H1 & H2 & H3 & H4 & H5).
  split; [apply pod_arm_OrgName|].
  rewrite !pod_source_tags_other, !pod_target_tags_other by reflexivity.
  split; [exact H1|]. split; [exact H2|]. split; [exact H3|]. split; [exact H4|].
  split; [exact H5|]. split.
  - apply pod_target_tags_read.
  - apply pod_source_tags_read.
Qed.

(** X18: a pod at the destination comes first.  When the destination
    address is a pod, the metric is the same whatever the service lookup
    would answer. *)
Theorem Convert_pod_before_service (k k' : Interface) now m t :
  GetPodByUID k (DestIP m) = Some t →
  (∀ ip, GetPodByUID k' ip = GetPodByUID k ip) →
  Convert k' now m = Convert k now m.
Proof.
  intros Ht Hsame. unfold Convert, resolve_target.
  by rewrite !Hsame, Ht.
Qed.



(** Whatever [Convert] emits, in terms of the runs of the Pod arm. *)
Lemma Convert_Some_parts (k : Interface) now m out :
  Convert k now m = Some out →
  match GetPodByUID k (DestIP m) with
  | Some t =>
      ∃ sourcePod,
        out = pod_source_tags sourcePod
                (pod_target_tags t (pod_peer_tags m t (classified now m)))
  | None => out = classified now m
  end.
Proof.
  unfold Convert, resolve_target.
  destruct (GetPodByUID k (SourceIP m)) as [sourcePod|]; [|done].
  destruct (GetPodByUID k (DestIP m)) as [t|].
  - intros [= <-]. by exists sourcePod.
  - destruct (GetService k (DestIP m)); [|done]. by intros [= <-].
Qed.

(** X20: the request tags.  Every metric that [Convert] emits carries the
    method and the protocol version of the event and its status code in
    decimal, is stamped with the clock reading of the conversion, and has
    no field. *)
Theorem Convert_request_tags (k : Interface) now m out :
  Convert k now m = Some out →
  Tags out !! "http_method" = Some (Method m) ∧
  Tags out !! "http_version" = Some (Version m) ∧
  Tags out !! "http_status_code" = Some (Go.Itoa (StatusCode m)) ∧
  Timestamp out = now ∧
  Fields out = ∅.
Proof.
  intros Hout%Convert_Some_parts.
  assert (Tags (classified now m) !! "http_method" = Some (Method m) ∧
          Tags (classified now m) !! "http_version" = Some (Version m) ∧
          Tags (classified now m) !! "http_status_code" = Some (Go.Itoa (StatusCode m)))
    as (H1 & H2 & H3).
  { unfold classified, output0. repeat split; read_tags. }
  destruct (GetPodByUID k (DestIP m)) as [t|]; [destruct Hout as [sourcePod ->]|subst out].
  - rewrite !pod_source_tags_other, !pod_target_tags_other, !pod_peer_tags_other
      by reflexivity.
    split; [exact H1|]. split; [exact H2|]. split; [exact H3|].
    pose proof (proj2 (pod_source_tags_rest sourcePod
                         (pod_target_tags t (pod_peer_tags m t (classified now m)))))
      as Hhead.
    rewrite (proj2 (pod_target_tags_rest _ _)), pod_peer_tags_rest in Hhead.
    split; [exact (f_equal (λ h : string * string * Z * gmap string Z, h.1.2) Hhead)|].
    exact (f_equal snd Hhead).
  - done.
Qed.

Ltac dom_of_assignments :=
  cbn [Tags tag set_Tags set_OrgName set_Measurement set_Name];
  rewrite !dom_insert_L, ?dom_empty_L;
  rewrite ?(right_id_L ∅ (∪));
  rewrite !(assoc_L (∪));
  first [ reflexivity | f_equal ].

Lemma classified_tag_names now m : dom (Tags (classified now m)) = tagnames.http_request.
Proof. unfold classified, output0. dom_of_assignments. Qed.

Lemma pod_arm_tag_names m sourcePod t output :
  dom (Tags (pod_source_tags sourcePod (pod_target_tags t (pod_peer_tags m t output)))) =
    tagnames.http_pod ∪ dom (Tags output).
Proof.
  unfold pod_source_tags, pod_target_tags, pod_peer_tags. dom_of_assignments.
Qed.

(** X21: the names of the tags of an HTTP metric: the ten of the request,
    and, when the destination is a pod, the twenty-nine of the Pod arm;
    no other. *)
Theorem Convert_tag_names (k : Interface) now m out :
  Convert k now m = Some out →
  dom (Tags out) =
    tagnames.http_request ∪
    match GetPodByUID k (DestIP m) with
    | Some _ => tagnames.http_pod
    | None => ∅
    end.
Proof.
  intros Hout%Convert_Some_parts.
  destruct (GetPodByUID k (DestIP m)) as [t|]; [destruct Hout as [sourcePod ->]|subst out].
  - rewrite pod_arm_tag_names, classified_tag_names.
    generalize tagnames.http_pod, tagnames.http_request. intros pod request.
    by rewrite (comm_L (∪)).
  - rewrite classified_tag_names. by rewrite (right_id_L ∅ (∪)).
Qed.

Lemma Convert_pod_target_witness :
  ∃ out, Convert samples.directory 0 (samples.http_event 200 "10.0.0.2") = Some out ∧
    OrgName out = "acme" ∧
    Tags out !! "peer_address" = Some "10.0.0.2:8080" ∧
    Tags out !! "peer_hostname" = Some "".
Proof.
  destruct (Convert_pod_target samples.directory 0 (samples.http_event 200 "10.0.0.2")
              samples.client samples.server eq_refl eq_refl) as (out & Hout & Htags).
  cbv zeta in Htags. destruct Htags as (H1 & _ & _ & _ & H5 & H6 & _).
  exists out. split; [exact Hout|]. split; [exact H1|]. split; [exact H5|exact H6].
Defined.

Lemma Convert_pod_before_service_witness :
  Convert samples.services_everywhere 0 (samples.http_event 200 "10.0.0.2") =
  Convert samples.directory 0 (samples.http_event 200 "10.0.0.2").
Proof.
  apply (Convert_pod_before_service samples.directory samples.services_everywhere 0
           (samples.http_event 200 "10.0.0.2") samples.server); reflexivity.
Defined.


Lemma Convert_request_tags_witness :
  ∃ out, Convert samples.directory 0 (samples.http_event 404 "10.0.0.3") = Some out ∧
    Tags out !! "http_method" = Some "GET" ∧
    Tags out !! "http_version" = Some "HTTP/1.1" ∧
    Tags out !! "http_status_code" = Some "404" ∧
    Timestamp out = 0 ∧
    Fields out = ∅.
Proof.
  eexists. split; [reflexivity|].
  apply (Convert_request_tags samples.directory 0 (samples.http_event 404 "10.0.0.3")).
  reflexivity.
Defined.

Lemma Convert_tag_names_witness :
  ∃ out, Convert samples.directory 0 (samples.http_event 200 "10.0.0.3") = Some out ∧
    dom (Tags out) = tagnames.http_request ∪ ∅.
Proof.
  eexists. split; [reflexivity|].
  apply (Convert_tag_names samples.directory 0 (samples.http_event 200 "10.0.0.3")).
  reflexivity.
Defined.

End meta_more.

(** * The OOM-kill probe *)
Module oom_spec.

Import oomkillprocesser.

(** The three ways through the probe. *)
Lemma kprobe_cases ctx (oom_map : gmap Z oom_stats) :
  let key := to_u32 (Z.shiftr (current_pid_tgid ctx) 32) in
  let old := default data0 (oom_map !! key) in
  let s := {| pid := key;
              fcomm := current_comm ctx (fcomm old);
              cgroupid := to_u32 (current_cgroup_id ctx);
              user_stack_size :=
                to_int (get_stack ctx (ustack old) (Z.of_nat MAX_STACK_RAWTP * 8)).1;
              ustack := (get_stack ctx (ustack old) (Z.of_nat MAX_STACK_RAWTP * 8)).2 |} in
  kprobe_oom_kill_process ctx oom_map =
    if chosen ctx =? 0 then (oom_map, 0)
    else if decide (is_Some (oom_map !! key) ∨ (size oom_map < oom_map_max_entries)%nat)
         then (<[key := s]> oom_map, 0)
         else (oom_map, 0).
Proof.
  cbv zeta. unfold kprobe_oom_kill_process. cbv zeta.
  destruct (chosen ctx =? 0); [done|].
  set (key := to_u32 _).
  unfold bpf.map_update_elem, bpf.map_lookup_elem.
  destruct (oom_map !! key) as [s0|] eqn:Hkey.
  - change (bpf.BPF_NOEXIST =? bpf.BPF_NOEXIST) with true. cbn [fst default].
    rewrite Hkey.
    change (id s0) with s0.
    destruct (get_stack ctx (ustack s0) _) as [ret buf].
    rewrite decide_True by (left; by eexists). done.
  - destruct (Nat.ltb_spec (size oom_map) oom_map_max_entries) as [Hroom|Hfull].
    + cbn [fst default]. rewrite lookup_insert_eq.
      change (id data0) with data0.
      destruct (get_stack ctx (ustack data0) _) as [ret buf].
      rewrite decide_True by (by right). by rewrite insert_insert_eq.
    + cbn [fst default]. rewrite Hkey.
      destruct (Nat.ltb_spec (size oom_map) oom_map_max_entries) as [Hroom|_]; [lia|].
      cbn [fst]. rewrite decide_False; [done|].
      intros [[? ?]|?]; [done|lia].
Qed.

(** X22: what one OOM kill leaves in the map.  The probe always returns
    0.  With no chosen task it leaves the map alone.  Otherwise, when the
    process has an entry or the map has room, the entry of the process
    holds its id (the upper half of the pid-tgid value), the low 32 bits
    of the cgroup id and the value of [bpf_get_stack] as an [int], and
    every other entry is as before; when the process has no entry and the
    map is full, nothing is recorded. *)
Theorem kprobe_records_or_drops ctx (oom_map : gmap Z oom_stats) :
  let key := to_u32 (Z.shiftr (current_pid_tgid ctx) 32) in
  let old := default data0 (oom_map !! key) in
  let after := (kprobe_oom_kill_process ctx oom_map).1 in
  (kprobe_oom_kill_process ctx oom_map).2 = 0 ∧
  (chosen ctx = 0 → after = oom_map) ∧
  (chosen ctx ≠ 0 →
   is_Some (oom_map !! key) ∨ (size oom_map < oom_map_max_entries)%nat →
   (∃ s, after !! key = Some s ∧
         pid s = key ∧
         fcomm s = current_comm ctx (fcomm old) ∧
         cgroupid s = current_cgroup_id ctx mod 2 ^ 32 ∧
         user_stack_size s =
           to_int (get_stack ctx (ustack old) 400).1 ∧
         ustack s = (get_stack ctx (ustack old) 400).2) ∧
   (∀ other, other ≠ key → after !! other = oom_map !! other)) ∧
  (chosen ctx ≠ 0 →
   oom_map !! key = None → (oom_map_max_entries ≤ size oom_map)%nat →
   after = oom_map).
Proof.
  cbv zeta. rewrite kprobe_cases. cbv zeta.
  destruct (Z.eqb_spec (chosen ctx) 0) as [Hnull|Hchosen].
  - cbn [fst snd]. split; [done|]. split; [done|]. split; [done|]. done.
  - destruct (decide _) as [Hyes|Hno]; cbn [fst snd].
    + split; [done|]. split; [done|]. split.
      * intros _ _. split.
        -- eexists. split; [apply lookup_insert_eq|]. done.
        -- intros other Hother. by rewrite lookup_insert_ne.
      * intros _ Hnone Hfull. destruct Hyes as [[? Hin]|?]; [congruence|lia].
    + split; [done|]. split; [done|]. split; [|done].
      intros _ Hyes. by destruct Hno.
Qed.

(** One run keeps what the map promises. *)
Lemma kprobe_keeps ctx (oom_map : gmap Z oom_stats) :
  let after := (kprobe_oom_kill_process ctx oom_map).1 in
  ((size oom_map ≤ oom_map_max_entries)%nat → (size after ≤ oom_map_max_entries)%nat) ∧
  dom oom_map ⊆ dom after ∧
  (size oom_map = oom_map_max_entries → dom after = dom oom_map) ∧
  (map_Forall (λ key s, pid s = key) oom_map → map_Forall (λ key s, pid s = key) after).
Proof.
  cbv zeta. rewrite kprobe_cases. cbv zeta.
  destruct (chosen ctx =? 0); [done|].
  set (key := to_u32 _).
  destruct (decide _) as [Hyes|Hno]; cbn [fst]; [|done].
  split; [|split; [|split]].
  - intros Hsize. destruct (oom_map !! key) as [s0|] eqn:Hkey.
    + by rewrite map_size_insert_Some.
    + rewrite map_size_insert_None by done.
      destruct Hyes as [[? ?]|?]; [done|lia].
  - rewrite dom_insert_L. apply union_subseteq_r.
  - intros Hfull. rewrite dom_insert_L.
    destruct Hyes as [Hin%elem_of_dom|?]; [|lia].
    apply subseteq_union_1_L. by apply singleton_subseteq_l.
  - intros Hkeyed. by apply map_Forall_insert_2.
Qed.

(** X23: the map over any number of OOM kills.  It never holds more than
    [max_entries] processes, no entry is ever removed, every entry sits
    under the process id it records, and once the map is full no new
    process gets an entry. *)
Theorem runs_keep kills : ∀ oom_map : gmap Z oom_stats,
  (size oom_map ≤ oom_map_max_entries)%nat →
  map_Forall (λ key s, pid s = key) oom_map →
  let after := runs kills oom_map in
  (size after ≤ oom_map_max_entries)%nat ∧
  dom oom_map ⊆ dom after ∧
  map_Forall (λ key s, pid s = key) after ∧
  (size oom_map = oom_map_max_entries → dom after = dom oom_map).
Proof.
  induction kills as [|ctx kills IH]; intros oom_map Hsize Hkeyed; cbv zeta.
  - done.
  - cbn [runs].
    destruct (kprobe_keeps ctx oom_map) as (Hs & Hd & Hf & Hk).
    destruct (IH _ (Hs Hsize) (Hk Hkeyed)) as (Hs' & Hd' & Hk' & Hf').
    split; [done|]. split; [by etrans|]. split; [done|].
    intros Hfull. rewrite Hf'; [by apply Hf|].
    apply Nat.le_antisymm; [by apply Hs|].
    rewrite <- Hfull, <- !size_dom. by apply subseteq_size.
Qed.

Lemma kprobe_records_or_drops_witness :
  ∃ s, (kprobe_oom_kill_process samples.oom_kill ∅).1 !! 4242 = Some s ∧
       pid s = 4242 ∧
       cgroupid s = 7 ∧
       user_stack_size s = 16.
Proof.
  destruct (kprobe_records_or_drops samples.oom_kill ∅) as (_ & _ & Hrec & _).
  destruct Hrec as [(s & Hs & Hpid & _ & Hcg & Hsize & _) _];
    [discriminate | right; vm_compute; lia |].
  exists s. split; [exact Hs|]. split; [exact Hpid|]. split; [exact Hcg|exact Hsize].
Defined.

Lemma runs_keep_witness :
  (size (runs [samples.oom_kill; samples.oom_kill] ∅) ≤ oom_map_max_entries)%nat ∧
  map_Forall (λ key s, pid s = key) (runs [samples.oom_kill; samples.oom_kill] ∅).
Proof.
  destruct (runs_keep [samples.oom_kill; samples.oom_kill] ∅) as (Hs & _ & Hk & _).
  - rewrite map_size_empty. lia.
  - apply map_Forall_empty.
  - split; [exact Hs|exact Hk].
Defined.

End oom_spec.
